(** * Live subtitles overlay: resampling, segmentation, dispatch and caption sink

    A shallow embedding of [live_subs_mac.py]: the linear resampler
    [simple_resample], the capture callback and its queue, the worker loop
    [asr_thread] with the rolling buffer and the window it hands to the
    transcription engine, [asr_transcribe_chunk], and the caption history
    kept by [OverlayApp._tick].

    Conventions of the embedding.
    - Python [int] is [Z]; [len] returns a [Z].
    - The length the resampler computes, [round(len(x) * (dst_sr /
      float(src_sr)))], is evaluated in binary64 as the code does, with
      the operations of [SpecFloat]: conversion of an int, division,
      product and rounding to an int, each with the exception Python
      raises.
    - Sample values and interpolation abscissae are exact rationals [Q]:
      the binary64 rounding inside [np.linspace] and [np.interp] and the
      final cast to float32 are not modelled.  The statements about
      samples below are those that do not depend on that rounding
      (lengths, which sample is taken, ranges, zeros); none states an
      equality between interpolated values.
    - The constants [BLOCK_SEC] and [OVERLAP_SEC] are exact rationals;
      the float products they enter ([2.5 + 0.5], [3.0 * 48000],
      [16000 * 2.5]) are exact in binary64.
    - A [str] is a [string] of 8-bit code points (the Latin-1 range).
    - A raised exception is an explicit [Raise] outcome.
    - The threads share the queues, the stop flag [terminate] and a
      record of the engine's invocations.  They are interleaved at two
      grains: whole iterations of the worker loop ([step], [run]), and
      the two halves of an iteration on either side of the engine call
      ([sys_step], [sys_run]), the first being a special case of the
      second. *)

From Stdlib Require Import List ZArith QArith Qround Qminmax Lia Lqa Bool.
From Stdlib Require Import String Ascii SpecFloat.
Import ListNotations.

Local Open Scope Z_scope.

(* ===================================================================== *)
(** ** Python and numpy primitives used by the program *)
(* ===================================================================== *)

Module Py.

(** Exceptions the modelled code can raise. *)
Inductive exn : Type :=
| ZeroDivisionError
| OverflowError
| ValueError
| EngineError.

(** The result of evaluating an expression that may raise. *)
Inductive outcome (A : Type) : Type :=
| Ok (a : A)
| Raise (e : exn).
Arguments Ok {A} a.
Arguments Raise {A} e.

(** [len(l)] *)
Definition len {A : Type} (l : list A) : Z := Z.of_nat (List.length l).

(** [l[i:]] for an arbitrary integer [i]: a negative index counts from
    the end and is clamped at the start of the list. *)
Definition slice_from {A : Type} (i : Z) (l : list A) : list A :=
  if i <? 0 then skipn (Z.to_nat (Z.max 0 (len l + i))) l
  else skipn (Z.to_nat i) l.

(** [l[:j]] *)
Definition slice_to {A : Type} (j : Z) (l : list A) : list A :=
  if j <? 0 then firstn (Z.to_nat (Z.max 0 (len l + j))) l
  else firstn (Z.to_nat j) l.

(** [int(q)] on a float: truncation toward zero. *)
Definition int (q : Q) : Z := Z.quot (Qnum q) (Zpos (Qden q)).

(** [round(q)] on a float: to the nearest integer, ties to the even one. *)
Definition round (q : Q) : Z :=
  let f := Qfloor q in
  match Qcompare (q - inject_Z f) (1 # 2) with
  | Lt => f
  | Gt => f + 1
  | Eq => if Z.even f then f else f + 1
  end.

(** [float(z)] for an int [z], also the conversion an int undergoes in
    [z / f] and [z * f]: the nearest binary64 value, ties to even; an int
    that rounds beyond the largest float raises. *)
Definition float (z : Z) : outcome spec_float :=
  match binary_normalize 53 1024 z 0 false with
  | S754_infinity _ => Raise OverflowError
  | f => Ok f
  end.

(** [a / b] on floats: a zero divisor raises. *)
Definition float_truediv (a b : spec_float) : outcome spec_float :=
  match b with
  | S754_zero _ => Raise ZeroDivisionError
  | _ => Ok (SFdiv 53 1024 a b)
  end.

(** [a * b] on floats: no exception, an overflow is an infinity. *)
Definition float_mul (a b : spec_float) : spec_float := SFmul 53 1024 a b.

(** The number a finite float stands for. *)
Definition float_value (f : spec_float) : Q :=
  match f with
  | S754_finite s m e =>
      let n := if s then Z.neg m else Z.pos m in
      match e with
      | Z.neg p => Qmake n (2 ^ p)
      | _ => inject_Z (n * 2 ^ e)
      end
  | _ => 0%Q
  end.

(** [round(f)] on a float: the nearest integer, ties to even; infinities
    and NaN raise. *)
Definition round_float (f : spec_float) : outcome Z :=
  match f with
  | S754_infinity _ => Raise OverflowError
  | S754_nan => Raise ValueError
  | _ => Ok (round (float_value f))
  end.

(** [np.linspace(0, 1, num=num)]: [num] evenly spaced abscissae from 0 to
    1 inclusive; a single point is [0.0]. *)
Definition linspace01 (num : Z) : list Q :=
  if num <=? 1 then repeat 0%Q (Z.to_nat num)
  else map (fun i => (inject_Z (Z.of_nat i) / inject_Z (num - 1))%Q)
           (seq 0 (Z.to_nat num)).

(** One evaluation of [np.interp]: [p0] is the current data point
    [(xp[j], fp[j])], [rest] the points after it.  Left of the first point
    and right of the last one the end values are returned; on a data point
    its value; in between, [slope * (x - xp[j]) + fp[j]]. *)
Fixpoint interp_from (x : Q) (p0 : Q * Q) (rest : list (Q * Q)) : Q :=
  match rest with
  | [] => snd p0
  | p1 :: rest' =>
      if Qle_bool (fst p1) x then interp_from x p1 rest'
      else if Qle_bool x (fst p0) then snd p0
      else ((snd p1 - snd p0) / (fst p1 - fst p0) * (x - fst p0) + snd p0)%Q
  end.

(** [np.interp(x_new, xp, fp)].  numpy rejects an empty [fp]; the caller
    below never passes one, and the model returns zeros there. *)
Definition interp (x_new xp fp : list Q) : list Q :=
  match combine xp fp with
  | [] => map (fun _ => 0%Q) x_new
  | p0 :: rest => map (fun x => interp_from x p0 rest) x_new
  end.

(** [row.mean()] of one frame across its channels. *)
Definition mean (row : list Q) : Q :=
  (fold_right Qplus 0 row / inject_Z (len row))%Q.

(** [str.isspace] on one code point of the Latin-1 range. *)
Definition isspace (c : ascii) : bool :=
  let n := Z.of_nat (nat_of_ascii c) in
  ((9 <=? n) && (n <=? 13)) || ((28 <=? n) && (n <=? 32))
  || (n =? 133) || (n =? 160).

(** [s.lstrip()] *)
Fixpoint lstrip (s : string) : string :=
  match s with
  | EmptyString => EmptyString
  | String c s' => if isspace c then lstrip s' else s
  end.

(** [s.rstrip()] *)
Fixpoint rstrip (s : string) : string :=
  match s with
  | EmptyString => EmptyString
  | String c s' =>
      match rstrip s' with
      | EmptyString => if isspace c then EmptyString else String c EmptyString
      | r => String c r
      end
  end.

(** [s.strip()] *)
Definition strip (s : string) : string := rstrip (lstrip s).

(** Truth value of a [str]: non-empty. *)
Definition truthy (s : string) : bool :=
  match s with EmptyString => false | _ => true end.

(** [sep.join(parts)] *)
Fixpoint join (sep : string) (parts : list string) : string :=
  match parts with
  | [] => EmptyString
  | [p] => p
  | p :: ps => (p ++ sep ++ join sep ps)%string
  end.

(** [t or ""] for an optional text. *)
Definition or_empty (t : option string) : string :=
  match t with Some s => s | None => EmptyString end.

(** [queue.Queue(maxsize)]: [maxsize <= 0] means no bound. *)
Record Queue (A : Type) : Type := mkQueue { maxsize : Z; items : list A }.
Arguments mkQueue {A} maxsize items.
Arguments maxsize {A} q.
Arguments items {A} q.

(** [queue.Queue()] *)
Definition Queue_new {A : Type} : Queue A := mkQueue 0 [].

Definition qsize {A : Type} (q : Queue A) : Z := len (items q).

(** [q.full()] *)
Definition full {A : Type} (q : Queue A) : bool :=
  (0 <? maxsize q) && (maxsize q <=? qsize q).

(** [q.put(x)]: [None] when the call would block on a full queue. *)
Definition put {A : Type} (q : Queue A) (x : A) : option (Queue A) :=
  if full q then None
  else Some (mkQueue (maxsize q) (items q ++ [x])).

(** [q.get(timeout=...)] and [q.get_nowait()]: [None] is [queue.Empty]. *)
Definition get {A : Type} (q : Queue A) : option (A * Queue A) :=
  match items q with
  | [] => None
  | x :: rest => Some (x, mkQueue (maxsize q) rest)
  end.

End Py.

Import Py.

(* ===================================================================== *)
(** ** Configuration constants of the module *)
(* ===================================================================== *)

Definition TARGET_SR : Z := 16000.
Definition BLOCK_SEC : Q := 5 # 2.
Definition OVERLAP_SEC : Q := 1 # 2.
Definition KEEP_LINES : Z := 4.

(* ===================================================================== *)
(** ** The resampler *)
(* ===================================================================== *)

(** The two statements that compute the output length of an input of [n]
    samples, in binary64 as Python evaluates them:
    [ratio = dst_sr / float(src_sr)] and
    [dst_len = int(round(n * ratio))]. *)
Definition dst_len (n src_sr dst_sr : Z) : outcome Z :=
  match float src_sr with
  | Raise e => Raise e
  | Ok fs =>
      match float dst_sr with
      | Raise e => Raise e
      | Ok fd =>
          match float_truediv fd fs with
          | Raise e => Raise e
          | Ok ratio =>
              match float n with
              | Raise e => Raise e
              | Ok fn => round_float (float_mul fn ratio)
              end
          end
      end
  end.

(** [simple_resample(x, src_sr, dst_sr)]: linear interpolation of [x] on
    [dst_len] evenly spaced abscissae.  The computation of [dst_len]
    raises for a zero [src_sr], and for rates beyond the range of a float,
    once the first guard is passed. *)
Definition simple_resample (x : list Q) (src_sr dst_sr : Z) : outcome (list Q) :=
  if (src_sr =? dst_sr) || (len x =? 0) then Ok x
  else
    match dst_len (len x) src_sr dst_sr with
    | Raise e => Raise e
    | Ok dst_len =>
        if dst_len <=? 1 then Ok (slice_to 1 x)
        else
          let xp := linspace01 (len x) in
          let fp := x in
          let x_new := linspace01 dst_len in
          Ok (interp x_new xp fp)
    end.

(** The inputs on which [simple_resample] gets past the computation of
    the length: equal rates, an empty array, or a length that Python
    computes without raising. *)
Definition resample_defined (n src_sr dst_sr : Z) : Prop :=
  src_sr = dst_sr \/ n = 0 \/ exists m, dst_len n src_sr dst_sr = Ok m.

(** What the specification states for the output length:
    [round(L * Dr / Sr)]. *)
Definition spec_resampled_len (L Sr Dr : Z) : Z :=
  round (inject_Z L * (inject_Z Dr / inject_Z Sr)).



Definition within (lo hi : Q) (v : Q) : Prop := (lo <= v /\ v <= hi)%Q.

Definition all_zero (x : list Q) : Prop := Forall (fun v => v == 0)%Q x.

(* ===================================================================== *)
(** ** Capture: device negotiation and the delivery callback *)
(* ===================================================================== *)

(** A numpy array of samples: one-dimensional, or frames by channels. *)
Inductive ndarray : Type :=
| Arr1 (v : list Q)
| Arr2 (rows : list (list Q)).

(** The fields of [sd.query_devices(i)] that [audio_thread] reads. *)
Record DeviceInfo : Type := mkDeviceInfo {
  default_samplerate : Q;
  max_input_channels : Z
}.

(** The parameters [audio_thread] opens the input stream with. *)
Record StreamParams : Type := mkStreamParams {
  samplerate : Z;
  channels : Z;
  blocksize : Z
}.

(** [audio_thread], up to the opening of the stream: the rate negotiated
    with the device is its default sample rate. *)
Definition audio_thread (dev_info : DeviceInfo) : StreamParams :=
  let src_sr := int (default_samplerate dev_info) in
  let channels :=
    let c := Z.min 2 (max_input_channels dev_info) in
    if c =? 0 then 1 else c in
  let blocksize := int (inject_Z src_sr * (1 # 20)) in
  mkStreamParams src_sr channels blocksize.

(** Engine activity, recorded for the statements about dispatch: the
    window handed to the engine at its [k]-th invocation and how that
    invocation ended. *)
Inductive Event : Type :=
| EngineCall (k : nat) (window : list Q)
| EngineReturn (k : nat)
| EngineRaise (k : nat).

(** State shared between the threads: the two module-level queues, the
    record of engine invocations, and the stop flag
    [terminate = threading.Event()]. *)
Record Shared : Type := mkShared {
  raw_q : Queue ndarray;
  text_q : Queue string;
  calls : nat;
  trace : list Event;
  terminate : bool
}.

(** The module's initial state: [raw_q = queue.Queue()],
    [text_q = queue.Queue()], [terminate] not set. *)
Definition Shared_init : Shared :=
  mkShared Queue_new Queue_new 0%nat [] false.

Definition set_raw_q (q : Queue ndarray) (w : Shared) : Shared :=
  mkShared q (text_q w) (calls w) (trace w) (terminate w).

Definition set_text_q (q : Queue string) (w : Shared) : Shared :=
  mkShared (raw_q w) q (calls w) (trace w) (terminate w).

(** [terminate.set()] *)
Definition set_terminate (w : Shared) : Shared :=
  mkShared (raw_q w) (text_q w) (calls w) (trace w) true.

(** [audio_callback(indata, frames, time_info, status)]:
    [raw_q.put(indata.copy())].  [None] when the put would block. *)
Definition audio_callback (indata : ndarray) (w : Shared) : option Shared :=
  match put (raw_q w) indata with
  | Some q => Some (set_raw_q q w)
  | None => None
  end.

(* ===================================================================== *)
(** ** The transcription engine and its wrapper *)
(* ===================================================================== *)

(** [ASR_BACKEND] *)
Inductive Backend : Type := faster | whisper | no_backend.

(** The external model, an opaque collaborator: what its [transcribe]
    answers to the [k]-th invocation on a given window.  faster-whisper
    yields segments whose [text] may be [None]; openai-whisper a dict whose
    ["text"] entry may be missing.  Either may raise. *)
Record AsrModel : Type := mkAsrModel {
  faster_transcribe : nat -> list Q -> outcome (list (option string));
  whisper_transcribe : nat -> list Q -> outcome (option string)
}.

(** [asr_transcribe_chunk(mono16k)], at the [k]-th invocation. *)
Definition asr_transcribe_chunk (ASR_BACKEND : Backend) (asr_model : AsrModel)
    (k : nat) (mono16k : list Q) : outcome string :=
  match ASR_BACKEND with
  | faster =>
      match faster_transcribe asr_model k mono16k with
      | Ok segments =>
          let parts :=
            filter truthy (map (fun seg => strip (or_empty seg)) segments) in
          Ok (strip (join " " parts))
      | Raise e => Raise e
      end
  | whisper =>
      match whisper_transcribe asr_model k mono16k with
      | Ok text => Ok (strip (or_empty text))
      | Raise e => Raise e
      end
  | no_backend => Ok EmptyString
  end.

(* ===================================================================== *)
(** ** The worker: rolling buffer, segmentation, dispatch *)
(* ===================================================================== *)

(** How a piece of thread code ends: normally, by an uncaught exception,
    or waiting forever on a full queue. *)
Inductive result (A : Type) : Type :=
| Done (a : A)
| Died (e : exn)
| Stuck.
Arguments Done {A} a.
Arguments Died {A} e.
Arguments Stuck {A}.

(** Thread code acting on the shared state. *)
Definition Thread (A : Type) : Type := Shared -> result A * Shared.

Definition ret {A : Type} (a : A) : Thread A := fun w => (Done a, w).

Definition bind {A B : Type} (m : Thread A) (f : A -> Thread B) : Thread B :=
  fun w =>
    match m w with
    | (Done a, w') => f a w'
    | (Died e, w') => (Died e, w')
    | (Stuck, w') => (Stuck, w')
    end.

Notation "'let*' x ':=' m 'in' k" := (bind m (fun x => k))
  (at level 10, x name, m at level 100, k at level 200).

(** An expression that may raise, evaluated inside a thread. *)
Definition lift {A : Type} (o : outcome A) : Thread A :=
  fun w => match o with Ok a => (Done a, w) | Raise e => (Died e, w) end.

(** [raw_q.get(timeout=0.1)] under [try ... except queue.Empty]. *)
Definition raw_q_get : Thread (option ndarray) :=
  fun w =>
    match get (raw_q w) with
    | Some (block, q) => (Done (Some block), set_raw_q q w)
    | None => (Done None, w)
    end.

(** [text_q.put(text)] *)
Definition text_q_put (text : string) : Thread unit :=
  fun w =>
    match put (text_q w) text with
    | Some q => (Done tt, set_text_q q w)
    | None => (Stuck, w)
    end.

Definition log (e : Event) : Thread unit :=
  fun w => (Done tt, mkShared (raw_q w) (text_q w) (calls w)
                              (trace w ++ [e]) (terminate w)).

Definition next_call : Thread nat :=
  fun w => (Done (calls w),
            mkShared (raw_q w) (text_q w) (S (calls w)) (trace w)
                     (terminate w)).

(** The call [asr_transcribe_chunk(mono16k)] as the worker makes it, with
    the invocation recorded. *)
Definition transcribe (backend : Backend) (model : AsrModel)
    (mono16k : list Q) : Thread string :=
  let* k := next_call in
  let* _ := log (EngineCall k mono16k) in
  match asr_transcribe_chunk backend model k mono16k with
  | Ok text => let* _ := log (EngineReturn k) in ret text
  | Raise e => let* _ := log (EngineRaise k) in lift (Raise e)
  end.

Definition target_block : Z := int (inject_Z TARGET_SR * BLOCK_SEC).
Definition target_overlap : Z := int (inject_Z TARGET_SR * OVERLAP_SEC).
Definition approx_src_sr : Z := 48000.

(** [need_src_len], computed in every iteration of [asr_thread]. *)
Definition need_src_len : Z :=
  int ((BLOCK_SEC + OVERLAP_SEC) * inject_Z approx_src_sr).

(** The fold to mono at the head of the loop body:
    [block.mean(axis=1)] when [block.ndim == 2], the block itself
    otherwise. *)
Definition to_mono (block : ndarray) : list Q :=
  match block with
  | Arr2 rows => map mean rows
  | Arr1 v => v
  end.

(** Appending to the rolling buffer and capping it:
    [src_buffer = np.concatenate([src_buffer, mono])], then
    [src_buffer[-48000*60:]] when longer than [48000 * 60]. *)
Definition append_capped (src_buffer mono : list Q) : list Q :=
  let src_buffer := src_buffer ++ mono in
  if len src_buffer >? 48000 * 60
  then slice_from (-48000 * 60) src_buffer
  else src_buffer.

(** The last two statements before the engine call: the window is the
    tail of the resampled span when that span is long enough, and the span
    itself otherwise. *)
Definition fit_window (mono16k : list Q) : list Q :=
  if len mono16k >=? target_block
  then slice_from (- target_block) mono16k
  else mono16k.

(** One iteration of the [while] loop of [asr_thread]; [got] is the
    block the queue delivered.  Returns the new [src_buffer]. *)
Definition asr_iteration (backend : Backend) (model : AsrModel)
    (src_buffer : list Q) : Thread (list Q) :=
  let* got := raw_q_get in
  match got with
  | None => ret src_buffer
  | Some block =>
      let mono := to_mono block in
      let src_buffer := append_capped src_buffer mono in
      let* _ :=
        if len src_buffer >=? need_src_len then
          let src_chunk := slice_from (- need_src_len) src_buffer in
          let* mono16k :=
            lift (simple_resample src_chunk approx_src_sr TARGET_SR) in
          let mono16k := fit_window mono16k in
          let* text := transcribe backend model mono16k in
          if truthy text then text_q_put text else ret tt
        else ret tt in
      ret src_buffer
  end.

(* ===================================================================== *)
(** ** The overlay: caption history *)
(* ===================================================================== *)

(** The body of the loop of [_tick] for one dequeued text [t]. *)
Definition sink_append (lines : list string) (t : string) : list string :=
  if truthy (strip t) then
    let lines := lines ++ [strip t] in
    if len lines >? KEEP_LINES
    then slice_from (- KEEP_LINES) lines
    else lines
  else lines.

(** [while True: t = text_q.get_nowait() ...] until [queue.Empty], over
    the texts waiting in the queue. *)
Fixpoint tick_loop (waiting : list string) (lines : list string) : list string :=
  match waiting with
  | [] => lines
  | t :: rest => tick_loop rest (sink_append lines t)
  end.

(** The displayed text: ["\n".join(self.lines)]. *)
Definition display (lines : list string) : string :=
  join (String (ascii_of_nat 10) EmptyString) lines.

(** [OverlayApp._tick]: drains [text_q] into [self.lines]. *)
Definition _tick (lines : list string) (w : Shared) : list string * Shared :=
  (tick_loop (items (text_q w)) lines,
   set_text_q (mkQueue (maxsize (text_q w)) []) w).

(** [OverlayApp._clear] *)
Definition _clear (lines : list string) : list string := [].

(* ===================================================================== *)
(** ** The pipeline: three activities over the shared state *)
(* ===================================================================== *)

(** The worker thread between iterations: at the head of its loop with
    its local [src_buffer], ended by an uncaught exception, waiting for
    ever on a full queue, or returned from [asr_thread] after the stop
    flag was set. *)
Inductive WorkerStatus : Type :=
| Running (src_buffer : list Q)
| Dead (e : exn)
| Waiting
| Finished.

Record Pipeline : Type := mkPipeline {
  shared : Shared;
  worker : WorkerStatus;
  lines : list string
}.

(** [main] after start-up: empty queues, [src_buffer = np.zeros(0)],
    [self.lines = []]. *)
Definition Pipeline_init : Pipeline :=
  mkPipeline Shared_init (Running []) [].

(** What can happen next: the device delivers a block, the single worker
    thread tests its loop guard and runs one iteration, the display timer
    fires, or the user quits ([OverlayApp._quit]). *)
Inductive Action : Type :=
| Capture (indata : ndarray)
| Work
| Tick
| Quit.

(** One action.  The worker leaves its loop, [while not
    terminate.is_set()], when it finds the flag set; the window being
    destroyed by [_quit], no refresh follows it.  The device may go on
    delivering blocks after a quit, until [audio_thread] closes the
    stream. *)
Definition step (backend : Backend) (model : AsrModel)
    (p : Pipeline) (a : Action) : Pipeline :=
  match a with
  | Capture indata =>
      match audio_callback indata (shared p) with
      | Some w => mkPipeline w (worker p) (lines p)
      | None => p
      end
  | Work =>
      match worker p with
      | Running src_buffer =>
          if terminate (shared p)
          then mkPipeline (shared p) Finished (lines p)
          else
            match asr_iteration backend model src_buffer (shared p) with
            | (Done b, w) => mkPipeline w (Running b) (lines p)
            | (Died e, w) => mkPipeline w (Dead e) (lines p)
            | (Stuck, w) => mkPipeline w Waiting (lines p)
            end
      | _ => p
      end
  | Tick =>
      if terminate (shared p) then p
      else
        let '(l, w) := _tick (lines p) (shared p) in
        mkPipeline w (worker p) l
  | Quit => mkPipeline (set_terminate (shared p)) (worker p) (lines p)
  end.

Definition run (backend : Backend) (model : AsrModel)
    (p : Pipeline) (acts : list Action) : Pipeline :=
  fold_left (step backend model) acts p.

(** Number of engine invocations in flight after a sequence of events. *)
Fixpoint depth (tr : list Event) : Z :=
  match tr with
  | [] => 0
  | EngineCall _ _ :: tr' => depth tr' + 1
  | EngineReturn _ :: tr' => depth tr' - 1
  | EngineRaise _ :: tr' => depth tr' - 1
  end.

(* ===================================================================== *)
(** ** Threads interleaved at the engine call *)
(* ===================================================================== *)

(** The call of line 221 takes time, during which the device goes on
    delivering blocks, the display goes on refreshing and the user may
    quit.  Below the call is cut in two, its beginning and its end, with
    anything allowed to happen in between, and any number of threads
    may run [asr_thread]; [main] starts one. *)

(** Entering [asr_transcribe_chunk(mono16k)]: the invocation is numbered
    and recorded as begun. *)
Definition engine_enter (mono16k : list Q) : Thread nat :=
  let* k := next_call in
  let* _ := log (EngineCall k mono16k) in
  ret k.

(** The [k]-th invocation coming to its end, by a return or by an
    exception. *)
Definition engine_leave (backend : Backend) (model : AsrModel)
    (k : nat) (mono16k : list Q) : Thread string :=
  match asr_transcribe_chunk backend model k mono16k with
  | Ok text => let* _ := log (EngineReturn k) in ret text
  | Raise e => let* _ := log (EngineRaise k) in lift (Raise e)
  end.

(** The loop body of [asr_thread] down to the call of line 221: the new
    [src_buffer] and, when a window is dispatched, the invocation
    begun. *)
Definition asr_to_call (src_buffer : list Q) :
    Thread (list Q * option (nat * list Q)) :=
  let* got := raw_q_get in
  match got with
  | None => ret (src_buffer, None)
  | Some block =>
      let mono := to_mono block in
      let src_buffer := append_capped src_buffer mono in
      if len src_buffer >=? need_src_len then
        let src_chunk := slice_from (- need_src_len) src_buffer in
        let* mono16k :=
          lift (simple_resample src_chunk approx_src_sr TARGET_SR) in
        let mono16k := fit_window mono16k in
        let* k := engine_enter mono16k in
        ret (src_buffer, Some (k, mono16k))
      else ret (src_buffer, None)
  end.

(** The loop body from the end of the call of line 221 on. *)
Definition asr_from_call (backend : Backend) (model : AsrModel)
    (src_buffer : list Q) (k : nat) (mono16k : list Q) : Thread (list Q) :=
  let* text := engine_leave backend model k mono16k in
  let* _ := if truthy text then text_q_put text else ret tt in
  ret src_buffer.

(** A thread running [asr_thread]: between two iterations, or inside the
    engine, its invocation [k] on [mono16k] begun and not over. *)
Inductive Phase : Type :=
| Between (st : WorkerStatus)
| InEngine (src_buffer : list Q) (k : nat) (mono16k : list Q).

Definition status_of {A : Type} (r : result A) (running : A -> Phase) : Phase :=
  match r with
  | Done a => running a
  | Died e => Between (Dead e)
  | Stuck => Between Waiting
  end.

(** One thread taking its next turn, as far as the next boundary of an
    engine call. *)
Definition advance (backend : Backend) (model : AsrModel)
    (ph : Phase) (w : Shared) : Phase * Shared :=
  match ph with
  | Between (Running src_buffer) =>
      if terminate w then (Between Finished, w)
      else
        let '(r, w') := asr_to_call src_buffer w in
        (status_of r (fun '(b, call) =>
           match call with
           | Some (k, mono16k) => InEngine b k mono16k
           | None => Between (Running b)
           end), w')
  | Between _ => (ph, w)
  | InEngine src_buffer k mono16k =>
      let '(r, w') := asr_from_call backend model src_buffer k mono16k w in
      (status_of r (fun b => Between (Running b)), w')
  end.

Record System : Type := mkSystem {
  sys_shared : Shared;
  sys_threads : list Phase;
  sys_lines : list string
}.

(** [main]: one thread running [asr_thread]. *)
Definition System_main : System :=
  mkSystem Shared_init [Between (Running [])] [].

(** What [main] does not build: two threads running [asr_thread] over
    the same queues. *)
Definition System_two_workers : System :=
  mkSystem Shared_init [Between (Running []); Between (Running [])] [].

(** What the scheduler lets happen next. *)
Inductive Sched : Type :=
| Delivers (indata : ndarray)
| Advances (i : nat)
| Refreshes
| Stops.

Fixpoint update {A : Type} (i : nat) (a : A) (l : list A) : list A :=
  match l, i with
  | [], _ => []
  | _ :: l', O => a :: l'
  | b :: l', S i' => b :: update i' a l'
  end.

Definition sys_step (backend : Backend) (model : AsrModel)
    (s : System) (ev : Sched) : System :=
  match ev with
  | Delivers indata =>
      match audio_callback indata (sys_shared s) with
      | Some w => mkSystem w (sys_threads s) (sys_lines s)
      | None => s
      end
  | Advances i =>
      match nth_error (sys_threads s) i with
      | Some ph =>
          let '(ph', w) := advance backend model ph (sys_shared s) in
          mkSystem w (update i ph' (sys_threads s)) (sys_lines s)
      | None => s
      end
  | Refreshes =>
      if terminate (sys_shared s) then s
      else
        let '(l, w) := _tick (sys_lines s) (sys_shared s) in
        mkSystem w (sys_threads s) l
  | Stops => mkSystem (set_terminate (sys_shared s)) (sys_threads s) (sys_lines s)
  end.

Definition sys_run (backend : Backend) (model : AsrModel)
    (s : System) (sched : list Sched) : System :=
  fold_left (sys_step backend model) sched s.

(** The threads inside the engine. *)
Definition in_engine (ph : Phase) : Z :=
  match ph with
  | InEngine _ _ _ => 1
  | Between _ => 0
  end.

Definition in_flight (threads : list Phase) : Z :=
  fold_right (fun ph n => in_engine ph + n) 0 threads.

(** The pipeline of the previous section, its single worker between two
    iterations. *)
Definition system_of (p : Pipeline) : System :=
  mkSystem (shared p) [Between (worker p)] (lines p).

(** The record of engine events agrees with the threads: its depth is
    the number of threads inside the engine, and after none of its
    events was it above the number of threads. *)
Definition flight_recorded (s : System) : Prop :=
  depth (trace (sys_shared s)) = in_flight (sys_threads s) /\
  forall n : nat,
    0 <= depth (firstn n (trace (sys_shared s))) <= len (sys_threads s).

(* ===================================================================== *)
(** ** Vocabulary of the statements *)
(* ===================================================================== *)

(** The device delivering [frames] one after the other; [None] as soon as
    one delivery would block. *)
Fixpoint deliver (frames : list ndarray) (w : Shared) : option Shared :=
  match frames with
  | [] => Some w
  | f :: fs =>
      match audio_callback f w with
      | Some w' => deliver fs w'
      | None => None
      end
  end.

(** Engine invocations strictly one after the other: each call is followed
    at once by its own return or raise. *)
Inductive sequential : list Event -> Prop :=
| sequential_nil : sequential []
| sequential_return k window tr :
    sequential tr ->
    sequential (EngineCall k window :: EngineReturn k :: tr)
| sequential_raise k window tr :
    sequential tr ->
    sequential (EngineCall k window :: EngineRaise k :: tr).

(** What holds of a window handed to the engine: it is the tail, of
    [target_block] samples, of the resampling (48000 samples) of a span of
    [need_src_len] native samples. *)
Definition dispatched_window (window : list Q) : Prop :=
  exists src_chunk mono16k older,
    len src_chunk = need_src_len /\
    simple_resample src_chunk approx_src_sr TARGET_SR = Ok mono16k /\
    len mono16k = 48000 /\
    mono16k = older ++ window /\
    len window = target_block.

Definition window_of_event (P : list Q -> Prop) (e : Event) : Prop :=
  match e with
  | EngineCall _ window => P window
  | _ => True
  end.

(** The last [n] elements of a list. *)
Definition lastn {A : Type} (n : nat) (l : list A) : list A :=
  skipn (List.length l - n) l.

(** A text that survives [strip]. *)
Definition nonblank (t : string) : Prop := truthy (strip t) = true.

(** The engine of the two-window scenario: openai-whisper answering the
    empty text to its first invocation and ["hello"] to the next ones. *)
Definition model_empty_then_hello : AsrModel :=
  mkAsrModel
    (fun _ _ => Raise EngineError)
    (fun k _ => match k with
                | O => Ok (Some EmptyString)
                | S _ => Ok (Some "hello"%string)
                end).

(** An engine whose first invocation raises and whose later ones answer
    ["hello"]. *)
Definition model_raise_then_hello : AsrModel :=
  mkAsrModel
    (fun k _ => match k with
                | O => Raise EngineError
                | S _ => Ok [Some "hello"%string]
                end)
    (fun k _ => match k with
                | O => Raise EngineError
                | S _ => Ok (Some "hello"%string)
                end).

(** The effect of one loop iteration, case by case: nothing to read; a
    block read and too little audio buffered; a window dispatched and the
    engine returning (its text queued when non-empty); a window dispatched
    and the engine raising. *)
Inductive iteration (backend : Backend) (model : AsrModel)
    (src_buffer : list Q) (w : Shared) : result (list Q) * Shared -> Prop :=
| iter_empty :
    get (raw_q w) = None ->
    iteration backend model src_buffer w (Done src_buffer, w)
| iter_short block q :
    get (raw_q w) = Some (block, q) ->
    len (append_capped src_buffer (to_mono block)) < need_src_len ->
    iteration backend model src_buffer w
      (Done (append_capped src_buffer (to_mono block)), set_raw_q q w)
| iter_return block q mono16k text r tq :
    get (raw_q w) = Some (block, q) ->
    need_src_len <= len (append_capped src_buffer (to_mono block)) ->
    simple_resample
      (slice_from (- need_src_len) (append_capped src_buffer (to_mono block)))
      approx_src_sr TARGET_SR = Ok mono16k ->
    dispatched_window (fit_window mono16k) ->
    asr_transcribe_chunk backend model (calls w) (fit_window mono16k) = Ok text ->
    (truthy text = false /\ tq = text_q w /\
       r = Done (append_capped src_buffer (to_mono block))
     \/ truthy text = true /\ put (text_q w) text = Some tq /\
       r = Done (append_capped src_buffer (to_mono block))
     \/ truthy text = true /\ put (text_q w) text = None /\ tq = text_q w /\
       r = Stuck) ->
    iteration backend model src_buffer w
      (r, mkShared q tq (S (calls w))
            (trace w ++ [EngineCall (calls w) (fit_window mono16k);
                         EngineReturn (calls w)])
            (terminate w))
| iter_raise block q mono16k e :
    get (raw_q w) = Some (block, q) ->
    need_src_len <= len (append_capped src_buffer (to_mono block)) ->
    simple_resample
      (slice_from (- need_src_len) (append_capped src_buffer (to_mono block)))
      approx_src_sr TARGET_SR = Ok mono16k ->
    dispatched_window (fit_window mono16k) ->
    asr_transcribe_chunk backend model (calls w) (fit_window mono16k) = Raise e ->
    iteration backend model src_buffer w
      (Died e, mkShared q (text_q w) (S (calls w))
            (trace w ++ [EngineCall (calls w) (fit_window mono16k);
                         EngineRaise (calls w)])
            (terminate w)).

(** What every reachable state of the pipeline satisfies. *)
Definition healthy (p : Pipeline) : Prop :=
  sequential (trace (shared p)) /\
  Forall (window_of_event dispatched_window) (trace (shared p)) /\
  match worker p with
  | Running src_buffer => len src_buffer <= 48000 * 60
  | _ => True
  end /\
  maxsize (raw_q (shared p)) = 0 /\
  maxsize (text_q (shared p)) = 0.

(* ===================================================================== *)
(** ** Device selection *)
(* ===================================================================== *)

(** One entry of [sd.query_devices()], read with [d.get(key, default)]: a
    key may be missing. *)
Record DeviceEntry : Type := mkDeviceEntry {
  entry_name : option string;
  entry_max_input_channels : option Z
}.

(** A function that returns or leaves the process by [sys.exit(code)]. *)
Inductive exit_or (A : Type) : Type :=
| Returns (a : A)
| SystemExit (code : Z).
Arguments Returns {A} a.
Arguments SystemExit {A} code.

(** [c.lower()] on one code point of the Latin-1 range. *)
Definition lower_char (c : ascii) : ascii :=
  let n := Z.of_nat (nat_of_ascii c) in
  if ((65 <=? n) && (n <=? 90)) || ((192 <=? n) && (n <=? 214))
     || ((216 <=? n) && (n <=? 222))
  then ascii_of_nat (nat_of_ascii c + 32)
  else c.

(** [s.lower()] *)
Fixpoint lower (s : string) : string :=
  match s with
  | EmptyString => EmptyString
  | String c s' => String (lower_char c) (lower s')
  end.

(** [needle in hay] on strings. *)
Fixpoint contains (needle hay : string) : bool :=
  prefix needle hay ||
  match hay with
  | EmptyString => false
  | String _ hay' => contains needle hay'
  end.

(** The test of the loop of [pick_blackhole_device] on one device. *)
Definition is_blackhole_input (d : DeviceEntry) : bool :=
  let name := lower (or_empty (entry_name d)) in
  let max_in :=
    match entry_max_input_channels d with Some n => n | None => 0 end in
  contains "blackhole" name && (max_in >? 0).

(** The list [candidates] built over [enumerate(devices)], from index [i]. *)
Fixpoint candidates_from (i : nat) (devices : list DeviceEntry) : list nat :=
  match devices with
  | [] => []
  | d :: ds =>
      if is_blackhole_input d
      then i :: candidates_from (S i) ds
      else candidates_from (S i) ds
  end.

(** [pick_blackhole_device()] on the device list the host reports. *)
Definition pick_blackhole_device (devices : list DeviceEntry) : exit_or nat :=
  match candidates_from 0 devices with
  | i :: _ => Returns i
  | [] => SystemExit 2
  end.

(* ===================================================================== *)
(** ** The overlay: font and opacity keys *)
(* ===================================================================== *)

Definition FONT_SIZE : Z := 22.
Definition WINDOW_OPACITY : Q := 9 # 10.

(** The part of [OverlayApp] the key handlers act on: [self.font_size],
    the window's [-alpha] attribute and [self.lines]. *)
Record Overlay : Type := mkOverlay {
  font_size : Z;
  alpha : Q;
  sink : list string
}.

(** [OverlayApp.__init__] *)
Definition Overlay_init : Overlay := mkOverlay FONT_SIZE WINDOW_OPACITY [].

Definition _inc_font (o : Overlay) : Overlay :=
  mkOverlay (font_size o + 2) (alpha o) (sink o).

Definition _dec_font (o : Overlay) : Overlay :=
  mkOverlay (Z.max 10 (font_size o - 2)) (alpha o) (sink o).

Definition _inc_alpha (o : Overlay) : Overlay :=
  mkOverlay (font_size o) (Qmin 1 (alpha o + (1 # 20))) (sink o).

Definition _dec_alpha (o : Overlay) : Overlay :=
  mkOverlay (font_size o) (Qmax (3 # 10) (alpha o - (1 # 20))) (sink o).

(** The keys bound in [__init__], but for the two that quit. *)
Inductive Key : Type :=
| KeyPlus | KeyEqual | KeyMinus | KeyBracketLeft | KeyBracketRight | KeyC.

(** The handler each key is bound to. *)
Definition on_key (o : Overlay) (k : Key) : Overlay :=
  match k with
  | KeyPlus | KeyEqual => _inc_font o
  | KeyMinus => _dec_font o
  | KeyBracketLeft => _dec_alpha o
  | KeyBracketRight => _inc_alpha o
  | KeyC => mkOverlay (font_size o) (alpha o) (_clear (sink o))
  end.

(* ===================================================================== *)
(** ** Further vocabulary *)
(* ===================================================================== *)

(** A captured block whose samples all lie in [-1, 1], each frame having
    at least one channel. *)
Definition block_in_range (b : ndarray) : Prop :=
  match b with
  | Arr1 v => Forall (within (-1) 1) v
  | Arr2 rows =>
      Forall (fun row => row <> [] /\ Forall (within (-1) 1) row) rows
  end.

Definition capture_in_range (a : Action) : Prop :=
  match a with
  | Capture b => block_in_range b
  | _ => True
  end.

(** A pipeline all of whose audio lies in [-1, 1]: the blocks waiting in
    the capture queue, the rolling buffer, and the windows handed to the
    engine so far. *)
Definition audio_in_range (p : Pipeline) : Prop :=
  Forall block_in_range (items (raw_q (shared p))) /\
  match worker p with
  | Running src_buffer => Forall (within (-1) 1) src_buffer
  | _ => True
  end /\
  Forall (window_of_event (Forall (within (-1) 1))) (trace (shared p)).

(** A text that does not begin with whitespace. *)
Definition no_leading_space (s : string) : Prop :=
  match s with
  | EmptyString => True
  | String c _ => isspace c = false
  end.

(** A segment of faster-whisper whose text is missing or blank. *)
Definition blank_segment (seg : option string) : Prop :=
  truthy (strip (or_empty seg)) = false.

(** A text with no whitespace at either end. *)
Definition trimmed (s : string) : Prop := strip s = s.

(** A caption line: non-empty and trimmed. *)
Definition caption_line (s : string) : Prop := truthy s = true /\ trimmed s.

(** An engine none of whose invocations raises. *)
Definition never_raises (backend : Backend) (model : AsrModel) : Prop :=
  forall k window,
    exists text, asr_transcribe_chunk backend model k window = Ok text.

(** How the worker thread can have ended: never waiting on the caption
    queue; by an exception only when the last engine event is a raise;
    by returning from its loop only when the stop flag is set. *)
Definition worker_end (p : Pipeline) : Prop :=
  match worker p with
  | Running _ => True
  | Dead _ => exists tr k, trace (shared p) = tr ++ [EngineRaise k]
  | Waiting => False
  | Finished => terminate (shared p) = true
  end.

(** One captured block followed by one iteration of the worker, for each
    block. *)
Definition capture_work_each (blocks : list ndarray) : list Action :=
  flat_map (fun b => [Capture b; Work]) blocks.

(* ===================================================================== *)
(** ** Facts about lengths and slices *)
(* ===================================================================== *)

Section Slices.
Context {A : Type}.
Implicit Types l : list A.

Lemma len_nonneg l : 0 <= len l.
Proof. unfold len. lia. Qed.

Lemma len_app l1 l2 : len (l1 ++ l2) = len l1 + len l2.
Proof. unfold len. rewrite length_app. lia. Qed.

(** [l[-n:]] keeps exactly [n] elements when the list has that many. *)
Lemma slice_from_neg_len n l :
  0 < n -> n <= len l -> len (slice_from (- n) l) = n.
Proof.
  intros Hn Hl. unfold slice_from.
  destruct (Z.ltb_spec (- n) 0) as [_ | H]; [| lia].
  unfold len in *. rewrite length_skipn. lia.
Qed.

(** [l[-n:]] is what is left after dropping a prefix. *)
Lemma slice_from_neg_suffix n l :
  0 < n -> n <= len l ->
  exists dropped, l = dropped ++ slice_from (- n) l /\ len dropped = len l - n.
Proof.
  intros Hn Hl. unfold slice_from.
  destruct (Z.ltb_spec (- n) 0) as [_ | H]; [| lia].
  set (k := Z.to_nat (Z.max 0 (len l + - n))).
  exists (firstn k l). split.
  - symmetry. apply firstn_skipn.
  - unfold len in *. rewrite length_firstn. subst k. lia.
Qed.

End Slices.

Lemma len_map {A B : Type} (f : A -> B) (l : list A) : len (map f l) = len l.
Proof. unfold len. now rewrite length_map. Qed.

Lemma len_linspace01 (num : Z) : len (linspace01 num) = Z.max 0 num.
Proof.
  unfold linspace01, len.
  destruct (Z.leb_spec num 1).
  - rewrite repeat_length. lia.
  - rewrite length_map, length_seq. lia.
Qed.

Lemma len_interp (x_new xp fp : list Q) : len (interp x_new xp fp) = len x_new.
Proof.
  unfold interp. destruct (combine xp fp); apply len_map.
Qed.

(* ===================================================================== *)
(** ** Rounding *)
(* ===================================================================== *)

Lemma round_comp (p q : Q) : p == q -> round p = round q.
Proof.
  intros E. unfold round.
  rewrite (Qfloor_comp _ _ E).
  assert (E' : p - inject_Z (Qfloor q) == q - inject_Z (Qfloor q))
    by (rewrite E; reflexivity).
  now rewrite (Qcompare_comp _ _ E' (1 # 2) (1 # 2) (Qeq_refl _)).
Qed.

Lemma round_inject_Z (z : Z) : round (inject_Z z) = z.
Proof.
  unfold round. rewrite Qfloor_Z.
  destruct (Qcompare_spec (inject_Z z - inject_Z z) (1 # 2)) as [E | L | G].
  - exfalso. assert (E0 : inject_Z z - inject_Z z == 0) by ring.
    rewrite E0 in E. discriminate E.
  - reflexivity.
  - exfalso. assert (E0 : inject_Z z - inject_Z z == 0) by ring.
    rewrite E0 in G. discriminate G.
Qed.

(** Equal rates leave the length alone in the specification's formula. *)
Lemma spec_resampled_len_same_rate (L Sr : Z) :
  Sr <> 0 -> spec_resampled_len L Sr Sr = L.
Proof.
  intros H. unfold spec_resampled_len.
  rewrite <- (round_inject_Z L) at 2. apply round_comp.
  field. intros E. apply H.
  unfold Qeq in E. simpl in E. lia.
Qed.

(* ===================================================================== *)
(** ** Linear interpolation stays between the samples *)
(* ===================================================================== *)

Lemma convex_step (lo hi a b u v x : Q) :
  within lo hi a -> within lo hi b -> (u < x)%Q -> (x < v)%Q ->
  within lo hi ((b - a) / (v - u) * (x - u) + a).
Proof.
  intros [La Ha] [Lb Hb] Hux Hxv.
  assert (Hd : (0 < v - u)%Q) by lra.
  set (t := ((x - u) / (v - u))%Q).
  assert (Ht0 : (0 <= t)%Q).
  { unfold t. apply Qle_shift_div_l; [exact Hd | lra]. }
  assert (Ht1 : (t <= 1)%Q).
  { unfold t. apply Qle_shift_div_r; [exact Hd | lra]. }
  assert (E : (b - a) / (v - u) * (x - u) + a == (1 - t) * a + t * b).
  { unfold t. field. lra. }
  unfold within. rewrite E. split; nra.
Qed.

Lemma interp_from_within (lo hi x : Q) (rest : list (Q * Q)) :
  forall p0,
    within lo hi (snd p0) ->
    Forall (fun p => within lo hi (snd p)) rest ->
    within lo hi (interp_from x p0 rest).
Proof.
  induction rest as [| p1 rest IH]; intros p0 H0 Hrest; simpl.
  - exact H0.
  - inversion Hrest as [| ? ? H1 Hrest']; subst.
    destruct (Qle_bool (fst p1) x) eqn:E1.
    + apply IH; assumption.
    + destruct (Qle_bool x (fst p0)) eqn:E0.
      * exact H0.
      * apply convex_step; try assumption.
        -- apply Qnot_le_lt. intros C. apply Qle_bool_iff in C. congruence.
        -- apply Qnot_le_lt. intros C. apply Qle_bool_iff in C. congruence.
  Qed.

Lemma combine_snd_Forall (P : Q -> Prop) (xp fp : list Q) :
  Forall P fp -> Forall (fun p => P (snd p)) (combine xp fp).
Proof.
  intros H. apply Forall_forall. intros [a b] Hin. simpl.
  apply in_combine_r in Hin. rewrite Forall_forall in H. now apply H.
Qed.

Lemma interp_within (lo hi : Q) (x_new xp fp : list Q) :
  fp <> [] -> xp <> [] ->
  Forall (within lo hi) fp -> Forall (within lo hi) (interp x_new xp fp).
Proof.
  intros Hfp Hxp H. unfold interp.
  pose proof (combine_snd_Forall (within lo hi) xp fp H) as Hc.
  destruct (combine xp fp) as [| p0 rest] eqn:E.
  - destruct xp, fp; try congruence; discriminate E.
  - inversion Hc; subst. apply Forall_forall. intros v Hv.
    apply in_map_iff in Hv. destruct Hv as [x [<- _]].
    apply interp_from_within; assumption.
Qed.

Lemma slice_to_1_within (P : Q -> Prop) (x : list Q) :
  Forall P x -> Forall P (slice_to 1 x).
Proof.
  intros H. unfold slice_to. simpl.
  destruct x as [| a x']; simpl; [constructor |].
  inversion H; subst. constructor; [assumption | constructor].
Qed.

Lemma len_slice_to_1 (x : list Q) : 0 < len x -> len (slice_to 1 x) = 1.
Proof.
  destruct x as [| a x']; unfold len; simpl; [lia | intros _].
  reflexivity.
Qed.

(* ===================================================================== *)
(** ** The resampler: when it returns, length, range *)
(* ===================================================================== *)

(** What [simple_resample] returns, branch by branch. *)
Lemma simple_resample_cases (x : list Q) (src_sr dst_sr : Z) :
  resample_defined (len x) src_sr dst_sr ->
  exists y, simple_resample x src_sr dst_sr = Ok y /\
    ((y = x /\ (src_sr = dst_sr \/ len x = 0)) \/
     (exists m, dst_len (len x) src_sr dst_sr = Ok m /\
        src_sr <> dst_sr /\ 0 < len x /\ m <= 1 /\ y = slice_to 1 x) \/
     (exists m, dst_len (len x) src_sr dst_sr = Ok m /\
        src_sr <> dst_sr /\ 0 < len x /\ 1 < m /\
        y = interp (linspace01 m) (linspace01 (len x)) x)).
Proof.
  intros Hdef. unfold simple_resample.
  pose proof (len_nonneg x) as Hlen.
  destruct (Z.eqb_spec src_sr dst_sr) as [E | NE]; simpl.
  - exists x. split; [reflexivity | left; auto].
  - destruct (Z.eqb_spec (len x) 0) as [E0 | NE0].
    + exists x. split; [reflexivity | left; auto].
    + destruct Hdef as [C | [C | [m Hm]]]; try contradiction.
      rewrite Hm. destruct (Z.leb_spec m 1).
      * eexists. split; [reflexivity |]. right; left.
        exists m. repeat split; auto; lia.
      * eexists. split; [reflexivity |]. right; right.
        exists m. repeat split; auto; lia.
Qed.


Lemma simple_resample_within (lo hi : Q) (x y : list Q) (src_sr dst_sr : Z) :
  simple_resample x src_sr dst_sr = Ok y ->
  Forall (within lo hi) x -> Forall (within lo hi) y.
Proof.
  unfold simple_resample. intros E H.
  destruct ((src_sr =? dst_sr) || (len x =? 0)) eqn:G.
  - inversion E; subst. exact H.
  - destruct (dst_len (len x) src_sr dst_sr) as [m | e]; [| discriminate E].
    destruct (m <=? 1).
    + inversion E; subst. now apply slice_to_1_within.
    + inversion E; subst. apply orb_false_iff in G. destruct G as [_ G].
      apply Z.eqb_neq in G.
      apply interp_within; try assumption.
      * intros ->. now apply G.
      * intros C. apply (f_equal len) in C. rewrite len_linspace01 in C.
        pose proof (len_nonneg x). unfold len in C at 2. simpl in C. lia.
Qed.


Lemma within_zero_all_zero (x : list Q) : all_zero x <-> Forall (within 0 0) x.
Proof.
  unfold all_zero, within. split; intros H; eapply Forall_impl; try exact H;
    simpl; intros v Hv.
  - rewrite Hv. split; apply Qle_refl.
  - destruct Hv. now apply Qle_antisym.
Qed.

(** The resampler on small arrays. *)
Example simple_resample_down_3 :
  simple_resample [1; 2; 3; 4; 5; 6]%Q 48000 16000 = Ok [1; 6]%Q.
Proof. reflexivity. Qed.

Example simple_resample_up_3 :
  simple_resample [0; 3]%Q 1 3 = Ok [0; 3 # 5; 6 # 5; 9 # 5; 12 # 5; 3]%Q.
Proof. reflexivity. Qed.

Example simple_resample_same_rate :
  simple_resample [1; 2]%Q 16000 16000 = Ok [1; 2]%Q.
Proof. reflexivity. Qed.

Example simple_resample_rate_beyond_float :
  simple_resample [1]%Q 1 (2 ^ 1024) = Raise OverflowError.
Proof. reflexivity. Qed.

Example round_ties_to_even :
  (round (1 # 2), round (3 # 2), round (5 # 2), round (- (5 # 2))) =
  (0, 2, 2, -2).
Proof. reflexivity. Qed.

(** The length in binary64 and the rounding of the exact quotient part
    ways: fifteen samples from rate 6 to rate 25 are [62.5] exactly, and
    [62.50000000000001] as the product of the two floats. *)
Example dst_len_binary64_above_the_tie :
  dst_len 15 6 25 = Ok 63 /\ spec_resampled_len 15 6 25 = 62.
Proof. split; reflexivity. Qed.

Example dst_len_of_the_span : dst_len 144000 48000 16000 = Ok 48000.
Proof. reflexivity. Qed.



(** C2, as stated, at a one-sample all-zero input resampled from 48 kHz to
    16 kHz: the output is the one sample, of length 1, while
    [round(1 * 16000 / 48000)] is 0. *)
Lemma C2_counterexample_single_sample :
  simple_resample [0%Q] 48000 16000 = Ok [0%Q] /\
  len [0%Q] = 1 /\
  spec_resampled_len 1 48000 16000 = 0.
Proof. repeat split. Qed.

(** C2, amended: whenever the length [n = round(L * (Dr / float(Sr)))]
    is computed without an exception, in binary64 as the code computes
    it, the resampler returns; the output has the length [L] of the
    input when the rates are equal or the input is empty, and
    [max 1 n] otherwise; an all-zero input yields an all-zero output of
    that length. *)
Theorem C2_resampled_length (x : list Q) (src_sr dst_sr n : Z) :
  dst_len (len x) src_sr dst_sr = Ok n ->
  exists y, simple_resample x src_sr dst_sr = Ok y /\
    len y = (if (src_sr =? dst_sr) || (len x =? 0) then len x
             else Z.max 1 n) /\
    (all_zero x -> all_zero y).
Proof.
  intros Hn.
  destruct (simple_resample_cases x src_sr dst_sr) as [y [E C]].
  { right. right. now exists n. }
  exists y. split; [exact E |]. split.
  - destruct C as [[-> [S | Z0]] | [(m & Hm & NE & Hp & Hs & ->)
                                   | (m & Hm & NE & Hp & Hs & ->)]].
    + subst dst_sr. now rewrite Z.eqb_refl.
    + rewrite Z0. now rewrite orb_true_r.
    + rewrite Hn in Hm. inversion Hm; subst m.
      destruct (Z.eqb_spec src_sr dst_sr); [contradiction |].
      destruct (Z.eqb_spec (len x) 0); [lia |]. simpl.
      rewrite len_slice_to_1 by assumption. lia.
    + rewrite Hn in Hm. inversion Hm; subst m.
      destruct (Z.eqb_spec src_sr dst_sr); [contradiction |].
      destruct (Z.eqb_spec (len x) 0); [lia |]. simpl.
      rewrite len_interp, len_linspace01. lia.
  - intros Hz. apply within_zero_all_zero.
    apply (simple_resample_within 0 0 x y src_sr dst_sr E).
    now apply within_zero_all_zero.
Qed.

(** C2 at fifteen zero samples resampled from rate 6 to rate 25: 63
    samples. *)
Lemma C2_resampled_length_witness :
  exists y,
    simple_resample (repeat 0%Q 15) 6 25 = Ok y /\
    len y = 63 /\
    (all_zero (repeat 0%Q 15) -> all_zero y).
Proof.
  apply (C2_resampled_length (repeat 0%Q 15) 6 25 63). reflexivity.
Defined.




(* ===================================================================== *)
(** ** The constants as numbers *)
(* ===================================================================== *)

Lemma target_block_val : target_block = 40000.
Proof. reflexivity. Qed.

Lemma need_src_len_val : need_src_len = 144000.
Proof. reflexivity. Qed.

(* ===================================================================== *)
(** ** Segmentation: the span, its resampling, the window *)
(* ===================================================================== *)

Lemma len_append_capped (src_buffer mono : list Q) :
  len (append_capped src_buffer mono) = Z.min (48000 * 60) (len src_buffer + len mono).
Proof.
  unfold append_capped. rewrite <- len_app.
  destruct (Z.gtb_spec (len (src_buffer ++ mono)) (48000 * 60)) as [G | G].
  - change (-48000 * 60) with (- (48000 * 60)).
    rewrite slice_from_neg_len; lia.
  - lia.
Qed.

Lemma append_capped_suffix (src_buffer mono : list Q) :
  exists dropped,
    src_buffer ++ mono = dropped ++ append_capped src_buffer mono /\
    len dropped = Z.max 0 (len src_buffer + len mono - 48000 * 60).
Proof.
  unfold append_capped. rewrite <- len_app.
  destruct (Z.gtb_spec (len (src_buffer ++ mono)) (48000 * 60)) as [G | G].
  - change (-48000 * 60) with (- (48000 * 60)).
    destruct (slice_from_neg_suffix (48000 * 60) (src_buffer ++ mono))
      as [d [E L]]; try lia.
    exists d. split; [exact E | lia].
  - exists []. split; [reflexivity |]. unfold len at 1. simpl. lia.
Qed.

Lemma resampled_span (src_buffer : list Q) :
  need_src_len <= len src_buffer ->
  exists mono16k,
    simple_resample (slice_from (- need_src_len) src_buffer)
                    approx_src_sr TARGET_SR = Ok mono16k /\
    len mono16k = 48000.
Proof.
  intros H.
  assert (L : len (slice_from (- need_src_len) src_buffer) = 144000).
  { rewrite slice_from_neg_len; [apply need_src_len_val | | exact H].
    rewrite need_src_len_val. lia. }
  assert (R : dst_len 144000 approx_src_sr TARGET_SR = Ok 48000)
    by reflexivity.
  destruct (simple_resample_cases (slice_from (- need_src_len) src_buffer)
              approx_src_sr TARGET_SR) as [y [E C]].
  { right. right. exists 48000. now rewrite L. }
  exists y. split; [exact E |].
  rewrite L, R in C.
  destruct C as [[_ [S | Z0]] | [(m & Hm & _ & _ & Hs & _)
                                | (m & Hm & _ & _ & _ & ->)]].
  - discriminate S.
  - lia.
  - inversion Hm; subst m. lia.
  - inversion Hm; subst m. rewrite len_interp, len_linspace01. lia.
Qed.

Lemma fit_window_long (mono16k : list Q) :
  target_block <= len mono16k ->
  len (fit_window mono16k) = target_block /\
  exists older, mono16k = older ++ fit_window mono16k.
Proof.
  intros H. unfold fit_window.
  destruct (Z.geb_spec (len mono16k) target_block) as [_ | C]; [| lia].
  assert (P : 0 < target_block) by (rewrite target_block_val; lia).
  split.
  - now apply slice_from_neg_len.
  - destruct (slice_from_neg_suffix target_block mono16k P H) as [d [E _]].
    now exists d.
Qed.

Lemma segment_dispatched_window (src_buffer : list Q) :
  need_src_len <= len src_buffer ->
  exists mono16k,
    simple_resample (slice_from (- need_src_len) src_buffer)
                    approx_src_sr TARGET_SR = Ok mono16k /\
    dispatched_window (fit_window mono16k).
Proof.
  intros H. destruct (resampled_span src_buffer H) as [m [E L]].
  exists m. split; [exact E |].
  destruct (fit_window_long m) as [Lw [older Eo]].
  { rewrite L, target_block_val. lia. }
  exists (slice_from (- need_src_len) src_buffer), m, older.
  repeat split; try assumption.
  apply slice_from_neg_len; [rewrite need_src_len_val; lia | exact H].
Qed.

(* ===================================================================== *)
(** ** One iteration of the worker *)
(* ===================================================================== *)

(** The engine call with its record, by cases on how the engine ends. *)
Lemma transcribe_spec (backend : Backend) (model : AsrModel)
    (mono16k : list Q) (w : Shared) :
  let k := calls w in
  match asr_transcribe_chunk backend model k mono16k with
  | Ok text =>
      transcribe backend model mono16k w =
      (Done text,
       mkShared (raw_q w) (text_q w) (S k)
                (trace w ++ [EngineCall k mono16k; EngineReturn k])
                (terminate w))
  | Raise e =>
      transcribe backend model mono16k w =
      (Died e,
       mkShared (raw_q w) (text_q w) (S k)
                (trace w ++ [EngineCall k mono16k; EngineRaise k])
                (terminate w))
  end.
Proof.
  unfold transcribe, bind, next_call, log, ret, lift. simpl.
  destruct (asr_transcribe_chunk backend model (calls w) mono16k); simpl;
    now rewrite <- app_assoc.
Qed.

Lemma asr_iteration_spec (backend : Backend) (model : AsrModel)
    (src_buffer : list Q) (w : Shared) :
  iteration backend model src_buffer w
    (asr_iteration backend model src_buffer w).
Proof.
  unfold asr_iteration, bind at 1, raw_q_get.
  destruct (get (raw_q w)) as [[block q] |] eqn:G.
  2: { now apply iter_empty. }
  set (buf := append_capped src_buffer (to_mono block)).
  unfold bind at 1.
  destruct (Z.geb_spec (len buf) need_src_len) as [H | H].
  2: { unfold ret. now apply iter_short. }
  destruct (segment_dispatched_window buf H) as [m [E D]].
  unfold bind at 1. unfold lift at 1. rewrite E.
  unfold bind at 1.
  pose proof (transcribe_spec backend model (fit_window m) (set_raw_q q w)) as T.
  simpl in T.
  destruct (asr_transcribe_chunk backend model (calls w) (fit_window m))
    as [text | e] eqn:A.
  - rewrite T. destruct (truthy text) eqn:Tr.
    + unfold text_q_put. simpl.
      destruct (put (text_q w) text) as [tq |] eqn:P; unfold ret, set_text_q; simpl.
      * eapply iter_return; try eassumption. right; left. auto.
      * eapply iter_return; try eassumption. right; right. auto.
    + unfold ret. eapply iter_return; try eassumption. left. auto.
  - rewrite T. eapply iter_raise; eauto.
Qed.

(* ===================================================================== *)
(** ** Invariants of the running pipeline *)
(* ===================================================================== *)

Lemma sequential_app (tr1 tr2 : list Event) :
  sequential tr1 -> sequential tr2 -> sequential (tr1 ++ tr2).
Proof.
  intros H1 H2. induction H1; simpl; [assumption | |]; now constructor.
Qed.

Lemma depth_prefix (tr : list Event) :
  sequential tr -> forall n, 0 <= depth (firstn n tr) <= 1.
Proof.
  induction 1 as [| k window tr _ IH | k window tr _ IH]; intros n.
  - rewrite firstn_nil. simpl. lia.
  - destruct n as [| [| n]]; simpl; try lia. specialize (IH n). lia.
  - destruct n as [| [| n]]; simpl; try lia. specialize (IH n). lia.
Qed.

Lemma healthy_init : healthy Pipeline_init.
Proof.
  repeat split; simpl; try constructor. unfold len. simpl. lia.
Qed.

Lemma get_maxsize {A : Type} (q q' : Queue A) (x : A) :
  get q = Some (x, q') -> maxsize q' = maxsize q /\ items q = x :: items q'.
Proof.
  unfold get. destruct (items q) as [| y rest]; [discriminate |].
  intros E. inversion E; subst. auto.
Qed.

Lemma put_unbounded {A : Type} (q : Queue A) (x : A) :
  maxsize q = 0 -> put q x = Some (mkQueue 0 (items q ++ [x])).
Proof.
  intros H. unfold put, full. rewrite H. reflexivity.
Qed.

Lemma healthy_step (backend : Backend) (model : AsrModel)
    (p : Pipeline) (a : Action) :
  healthy p -> healthy (step backend model p a).
Proof.
  intros (Hs & Hw & Hb & Hr & Ht). destruct a as [indata | | |]; simpl.
  - unfold audio_callback. rewrite (put_unbounded _ _ Hr).
    repeat split; assumption.
  - destruct (worker p) as [src_buffer | e | |] eqn:W.
    2, 3, 4: repeat split; try assumption; now rewrite W.
    destruct (terminate (shared p)) eqn:T.
    { repeat split; simpl; trivial. }
    pose proof (asr_iteration_spec backend model src_buffer (shared p)) as I.
    destruct (asr_iteration backend model src_buffer (shared p)) as [r w'].
    pose proof (len_append_capped src_buffer) as Hcap.
    inversion I; subst; simpl.
    + repeat split; assumption.
    + match goal with H : get _ = Some _ |- _ =>
        apply get_maxsize in H; destruct H as [Hq _] end.
      repeat split; try assumption; simpl; [rewrite Hcap; lia | congruence].
    + match goal with H : get _ = Some _ |- _ =>
        apply get_maxsize in H; destruct H as [Hq _] end.
      assert (Hs' : sequential (trace (shared p) ++
                [EngineCall (calls (shared p)) (fit_window mono16k);
                 EngineReturn (calls (shared p))])).
      { apply sequential_app; [assumption | repeat constructor]. }
      assert (Hw' : Forall (window_of_event dispatched_window)
                (trace (shared p) ++
                 [EngineCall (calls (shared p)) (fit_window mono16k);
                  EngineReturn (calls (shared p))])).
      { apply Forall_app. split; [assumption |].
        repeat constructor. assumption. }
      assert (Htq : maxsize tq = 0).
      { match goal with
        | H : _ \/ _ |- _ =>
            destruct H as [(_ & E & _) | [(_ & E & _) | (_ & _ & E & _)]]
        end; try (subst tq; assumption).
        rewrite (put_unbounded _ _ Ht) in E. now inversion E. }
      destruct r as [b | e |]; repeat split; simpl; try assumption;
        try congruence.
      match goal with
      | H : _ \/ _ |- _ =>
          destruct H as [(_ & _ & E) | [(_ & _ & E) | (_ & _ & _ & E)]];
          inversion E; subst
      end; rewrite Hcap; lia.
    + match goal with H : get _ = Some _ |- _ =>
        apply get_maxsize in H; destruct H as [Hq _] end.
      repeat split; simpl; trivial; try congruence.
      * apply sequential_app; [assumption | repeat constructor].
      * apply Forall_app. split; [assumption |].
        repeat constructor. assumption.
  - destruct (terminate (shared p)); repeat split; assumption.
  - repeat split; assumption.
Qed.

Lemma healthy_run (backend : Backend) (model : AsrModel)
    (acts : list Action) :
  forall p, healthy p -> healthy (run backend model p acts).
Proof.
  unfold run. induction acts as [| a acts IH]; intros p H; simpl.
  - exact H.
  - apply IH. now apply healthy_step.
Qed.

(* ===================================================================== *)
(** ** Segmentation and dispatch: the claims *)
(* ===================================================================== *)

(* ===================================================================== *)
(** ** Calls in flight *)
(* ===================================================================== *)

Lemma depth_app (tr1 tr2 : list Event) :
  depth (tr1 ++ tr2) = depth tr1 + depth tr2.
Proof.
  induction tr1 as [| [k window | k | k] tr1 IH]; simpl; lia.
Qed.

Lemma in_engine_bounds (ph : Phase) : 0 <= in_engine ph <= 1.
Proof. destruct ph; simpl; lia. Qed.

Lemma in_flight_bounds (threads : list Phase) :
  0 <= in_flight threads <= len threads.
Proof.
  induction threads as [| ph threads IH]; unfold len in *; simpl.
  - lia.
  - pose proof (in_engine_bounds ph). fold (in_flight threads). lia.
Qed.

Lemma len_update {A : Type} (i : nat) (a : A) (l : list A) :
  len (update i a l) = len l.
Proof.
  unfold len. f_equal. revert i.
  induction l as [| b l IH]; intros [| i]; simpl; auto.
Qed.

Lemma in_flight_update (threads : list Phase) :
  forall (i : nat) (ph ph' : Phase),
    nth_error threads i = Some ph ->
    in_flight (update i ph' threads) =
    in_flight threads + in_engine ph' - in_engine ph.
Proof.
  induction threads as [| p0 threads IH]; intros [| i] ph ph' H;
    simpl in H; try discriminate H.
  - inversion H; subst. simpl. fold (in_flight threads). lia.
  - simpl. fold (in_flight threads) (in_flight (update i ph' threads)).
    rewrite (IH i ph ph' H). lia.
Qed.

(** The first half of the loop body records at most the beginning of
    one invocation, and leaves the thread inside the engine exactly
    then. *)
Lemma asr_to_call_spec (src_buffer : list Q) (w : Shared) :
  match asr_to_call src_buffer w with
  | (Done (_, Some (k, mono16k)), w') =>
      trace w' = trace w ++ [EngineCall k mono16k]
  | (_, w') => trace w' = trace w
  end.
Proof.
  unfold asr_to_call, bind at 1, raw_q_get.
  destruct (get (raw_q w)) as [[block q] |]; [| reflexivity].
  destruct (len (append_capped src_buffer (to_mono block)) >=? need_src_len);
    [| reflexivity].
  unfold bind at 1, lift.
  destruct (simple_resample _ approx_src_sr TARGET_SR) as [m | e];
    reflexivity.
Qed.

(** The second half records the end of the invocation. *)
Lemma asr_from_call_spec (backend : Backend) (model : AsrModel)
    (src_buffer : list Q) (k : nat) (mono16k : list Q) (w : Shared) :
  exists ev,
    trace (snd (asr_from_call backend model src_buffer k mono16k w)) =
    trace w ++ [ev] /\
    depth [ev] = -1.
Proof.
  unfold asr_from_call, engine_leave, bind at 1.
  destruct (asr_transcribe_chunk backend model k mono16k) as [text | e].
  - exists (EngineReturn k). split; [| reflexivity].
    unfold bind at 1, log, ret.
    destruct (truthy text); [| reflexivity].
    unfold bind, text_q_put. cbn [snd fst].
    destruct (put _ text); reflexivity.
  - exists (EngineRaise k). split; reflexivity.
Qed.

Lemma advance_spec (backend : Backend) (model : AsrModel)
    (ph : Phase) (w : Shared) :
  exists evs,
    trace (snd (advance backend model ph w)) = trace w ++ evs /\
    (List.length evs <= 1)%nat /\
    depth evs = in_engine (fst (advance backend model ph w)) - in_engine ph.
Proof.
  destruct ph as [[src_buffer | e | |] | src_buffer k mono16k];
    cbn [advance].
  - destruct (terminate w).
    { exists []. simpl. rewrite app_nil_r. repeat split; lia. }
    pose proof (asr_to_call_spec src_buffer w) as T.
    destruct (asr_to_call src_buffer w) as [[[b [[k m] |]] | e |] w'];
      cbn [fst snd status_of in_engine].
    + exists [EngineCall k m]. repeat split; simpl; auto.
    + exists []. rewrite app_nil_r. repeat split; simpl; auto; lia.
    + exists []. rewrite app_nil_r. repeat split; simpl; auto; lia.
    + exists []. rewrite app_nil_r. repeat split; simpl; auto; lia.
  - exists []. simpl. rewrite app_nil_r. repeat split; lia.
  - exists []. simpl. rewrite app_nil_r. repeat split; lia.
  - exists []. simpl. rewrite app_nil_r. repeat split; lia.
  - destruct (asr_from_call_spec backend model src_buffer k mono16k w)
      as (ev & T & D).
    destruct (asr_from_call backend model src_buffer k mono16k w)
      as [[b | e |] w']; cbn [fst snd status_of in_engine] in *;
      exists [ev]; repeat split; simpl; auto; simpl in D; lia.
Qed.

Lemma firstn_snoc {A : Type} (n : nat) (l evs : list A) :
  (List.length evs <= 1)%nat ->
  firstn n (l ++ evs) = firstn n l \/ firstn n (l ++ evs) = l ++ evs.
Proof.
  intros H. rewrite firstn_app.
  destruct evs as [| ev [| ev' evs]]; simpl in H; try lia.
  - left. rewrite firstn_nil. apply app_nil_r.
  - destruct (n - List.length l)%nat eqn:E.
    + left. simpl. apply app_nil_r.
    + right. simpl. rewrite firstn_nil.
      rewrite firstn_all2 by lia. reflexivity.
Qed.

Lemma flight_recorded_step (backend : Backend) (model : AsrModel)
    (s : System) (ev : Sched) :
  flight_recorded s -> flight_recorded (sys_step backend model s ev).
Proof.
  intros [Hd Hp]. destruct ev as [indata | i | |]; cbn [sys_step].
  - unfold audio_callback.
    destruct (put (raw_q (sys_shared s)) indata); split; assumption.
  - destruct (nth_error (sys_threads s) i) as [ph |] eqn:N;
      [| split; assumption].
    destruct (advance_spec backend model ph (sys_shared s))
      as (evs & T & L & D).
    destruct (advance backend model ph (sys_shared s)) as [ph' w].
    cbn [fst snd] in *. unfold flight_recorded. cbn [sys_shared sys_threads].
    assert (Hd' : depth (trace w) = in_flight (update i ph' (sys_threads s))).
    { rewrite T, depth_app, (in_flight_update _ i ph ph' N). lia. }
    split; [exact Hd' |]. intros n. rewrite len_update.
    rewrite T. destruct (firstn_snoc n (trace (sys_shared s)) evs L) as [E | E];
      rewrite E.
    + apply Hp.
    + rewrite <- T, Hd', <- (len_update i ph').
      apply in_flight_bounds.
  - destruct (terminate (sys_shared s)); split; assumption.
  - split; assumption.
Qed.

Lemma len_threads_step (backend : Backend) (model : AsrModel)
    (s : System) (ev : Sched) :
  len (sys_threads (sys_step backend model s ev)) = len (sys_threads s).
Proof.
  destruct ev as [indata | i | |]; cbn [sys_step].
  - destruct (audio_callback indata (sys_shared s)); reflexivity.
  - destruct (nth_error (sys_threads s) i) as [ph |]; [| reflexivity].
    destruct (advance backend model ph (sys_shared s)) as [ph' w].
    apply len_update.
  - destruct (terminate (sys_shared s)); reflexivity.
  - reflexivity.
Qed.

Lemma flight_recorded_run (backend : Backend) (model : AsrModel)
    (sched : list Sched) :
  forall s,
    flight_recorded s ->
    flight_recorded (sys_run backend model s sched) /\
    len (sys_threads (sys_run backend model s sched)) = len (sys_threads s).
Proof.
  unfold sys_run. induction sched as [| ev sched IH]; intros s H;
    cbn [fold_left]; [auto |].
  destruct (IH _ (flight_recorded_step backend model s ev H)) as [F L].
  split; [exact F |]. now rewrite L, len_threads_step.
Qed.

Lemma flight_recorded_fresh (threads : list WorkerStatus) :
  flight_recorded (mkSystem Shared_init (map Between threads) []).
Proof.
  split; cbn [sys_shared sys_threads trace Shared_init].
  - induction threads as [| st threads IH]; [reflexivity |].
    simpl in *. fold (in_flight (map Between threads)). lia.
  - intros n. rewrite firstn_nil. simpl. pose proof (len_nonneg (map Between threads)).
    lia.
Qed.

(** The loop body is its two halves, one after the other. *)
Lemma asr_iteration_split (backend : Backend) (model : AsrModel)
    (src_buffer : list Q) (w : Shared) :
  asr_iteration backend model src_buffer w =
  match asr_to_call src_buffer w with
  | (Done (b, Some (k, mono16k)), w') =>
      asr_from_call backend model b k mono16k w'
  | (Done (b, None), w') => (Done b, w')
  | (Died e, w') => (Died e, w')
  | (Stuck, w') => (Stuck, w')
  end.
Proof.
  unfold asr_iteration, asr_to_call, asr_from_call, transcribe,
    engine_enter, engine_leave, bind, raw_q_get, lift, next_call, log, ret,
    text_q_put, set_raw_q, set_text_q.
  destruct (get (raw_q w)) as [[block q] |]; [| reflexivity].
  destruct (len (append_capped src_buffer (to_mono block)) >=? need_src_len);
    [| reflexivity].
  destruct (simple_resample _ approx_src_sr TARGET_SR) as [m | e];
    [| reflexivity].
  cbn [calls raw_q text_q trace terminate].
  destruct (asr_transcribe_chunk backend model (calls w) (fit_window m))
    as [text | e]; [| reflexivity].
  destruct (truthy text); [| reflexivity].
  cbn [calls raw_q text_q trace terminate].
  destruct (put (text_q w) text); reflexivity.
Qed.

(** One action of the pipeline of the previous sections is one or two
    turns of the interleaved system: there the engine call is over
    before anything else happens. *)
Lemma step_is_interleaving (backend : Backend) (model : AsrModel)
    (p : Pipeline) (a : Action) :
  exists sched,
    sys_run backend model (system_of p) sched =
    system_of (step backend model p a).
Proof.
  destruct a as [indata | | |].
  - exists [Delivers indata]. unfold sys_run. cbn [fold_left sys_step step].
    unfold system_of at 1. cbn [sys_shared sys_threads sys_lines].
    destruct (audio_callback indata (shared p)); reflexivity.
  - destruct (worker p) as [b | e | |] eqn:W.
    2, 3, 4: exists []; unfold system_of; simpl; rewrite W; simpl;
      now rewrite W.
    destruct (terminate (shared p)) eqn:Tm.
    { exists [Advances 0%nat]. unfold sys_run, system_of. simpl.
      rewrite W. simpl. now rewrite Tm. }
    pose proof (asr_iteration_split backend model b (shared p)) as Sp.
    destruct (asr_to_call b (shared p)) as [[[b' [[k m] |]] | e |] w'] eqn:A.
    + exists [Advances 0%nat; Advances 0%nat].
      unfold sys_run, system_of.
      cbn [fold_left sys_step sys_shared sys_threads sys_lines nth_error
           step].
      rewrite W. cbn [advance]. rewrite Tm, A.
      cbn [status_of update sys_shared sys_threads sys_lines nth_error
           advance].
      rewrite Sp.
      destruct (asr_from_call backend model b' k m w') as [[b2 | e |] w2];
        reflexivity.
    + exists [Advances 0%nat]. unfold sys_run, system_of.
      cbn [fold_left sys_step sys_shared sys_threads sys_lines nth_error
           step].
      rewrite W. cbn [advance]. rewrite Tm, A, Sp. reflexivity.
    + exists [Advances 0%nat]. unfold sys_run, system_of.
      cbn [fold_left sys_step sys_shared sys_threads sys_lines nth_error
           step].
      rewrite W. cbn [advance]. rewrite Tm, A, Sp. reflexivity.
    + exists [Advances 0%nat]. unfold sys_run, system_of.
      cbn [fold_left sys_step sys_shared sys_threads sys_lines nth_error
           step].
      rewrite W. cbn [advance]. rewrite Tm, A, Sp. reflexivity.
  - exists [Refreshes]. unfold sys_run, system_of.
    cbn [fold_left sys_step sys_shared sys_threads sys_lines step].
    destruct (terminate (shared p)); reflexivity.
  - exists [Stops]. reflexivity.
Qed.

Lemma sys_run_app (backend : Backend) (model : AsrModel) (s : System)
    (sched1 sched2 : list Sched) :
  sys_run backend model s (sched1 ++ sched2) =
  sys_run backend model (sys_run backend model s sched1) sched2.
Proof. unfold sys_run. apply fold_left_app. Qed.

(** Every run of the pipeline is a run of the interleaved system. *)
Lemma run_is_interleaving (backend : Backend) (model : AsrModel)
    (acts : list Action) :
  forall p,
    exists sched,
      sys_run backend model (system_of p) sched =
      system_of (run backend model p acts).
Proof.
  induction acts as [| a acts IH]; intros p.
  - now exists [].
  - destruct (step_is_interleaving backend model p a) as [s1 E1].
    destruct (IH (step backend model p a)) as [s2 E2].
    exists (s1 ++ s2). rewrite sys_run_app, E1, E2. reflexivity.
Qed.

(** A thread at the head of its loop that finds a block in the queue and
    enough audio behind it enters the engine. *)
Lemma advance_enters (backend : Backend) (model : AsrModel)
    (src_buffer : list Q) (w : Shared) (block : ndarray)
    (rest : list ndarray) :
  terminate w = false ->
  items (raw_q w) = block :: rest ->
  need_src_len <= len src_buffer + len (to_mono block) ->
  exists mono16k,
    dispatched_window mono16k /\
    advance backend model (Between (Running src_buffer)) w =
    (InEngine (append_capped src_buffer (to_mono block)) (calls w) mono16k,
     mkShared (mkQueue (maxsize (raw_q w)) rest) (text_q w) (S (calls w))
              (trace w ++ [EngineCall (calls w) mono16k]) false).
Proof.
  intros Tm Hq Hneed.
  assert (Hbuf : need_src_len <= len (append_capped src_buffer (to_mono block))).
  { rewrite len_append_capped, need_src_len_val in *. lia. }
  destruct (segment_dispatched_window _ Hbuf) as [m [E D]].
  exists (fit_window m). split; [exact D |].
  cbn [advance]. rewrite Tm.
  unfold asr_to_call, bind at 1, raw_q_get, get. rewrite Hq.
  destruct (Z.geb_spec (len (append_capped src_buffer (to_mono block)))
              need_src_len) as [_ | C]; [| lia].
  unfold bind at 1, lift. rewrite E.
  unfold engine_enter, bind, next_call, log, ret, set_raw_q.
  cbn [calls trace raw_q text_q terminate status_of]. now rewrite Tm.
Qed.

(** Two threads running [asr_thread] would overlap their calls: with a
    block of three seconds waiting for each, both are inside the engine
    once each has taken one turn. *)
Lemma two_workers_overlap (backend : Backend) (model : AsrModel)
    (b1 b2 : ndarray) :
  need_src_len <= len (to_mono b1) ->
  need_src_len <= len (to_mono b2) ->
  let s := sys_run backend model System_two_workers
             [Delivers b1; Delivers b2; Advances 0%nat; Advances 1%nat] in
  in_flight (sys_threads s) = 2 /\ depth (trace (sys_shared s)) = 2.
Proof.
  intros H1 H2 s. subst s. unfold sys_run, System_two_workers.
  cbn [fold_left].
  change (sys_step backend model
            (mkSystem Shared_init
               [Between (Running []); Between (Running [])] [])
            (Delivers b1))
    with (mkSystem (mkShared (mkQueue 0 [b1]) Queue_new 0%nat [] false)
            [Between (Running []); Between (Running [])] []).
  change (sys_step backend model
            (mkSystem (mkShared (mkQueue 0 [b1]) Queue_new 0%nat [] false)
               [Between (Running []); Between (Running [])] [])
            (Delivers b2))
    with (mkSystem (mkShared (mkQueue 0 [b1; b2]) Queue_new 0%nat [] false)
            [Between (Running []); Between (Running [])] []).
  destruct (advance_enters backend model []
              (mkShared (mkQueue 0 [b1; b2]) Queue_new 0%nat [] false)
              b1 [b2]) as (m1 & _ & A1); try reflexivity.
  { change (len (@nil Q)) with 0. lia. }
  cbn [sys_step sys_shared sys_threads sys_lines nth_error].
  rewrite A1.
  cbn [update sys_shared sys_threads sys_lines nth_error
       calls trace raw_q text_q maxsize app].
  destruct (advance_enters backend model []
              (mkShared (mkQueue 0 [b2]) Queue_new 1%nat
                 [EngineCall 0%nat m1] false)
              b2 []) as (m2 & _ & A2); try reflexivity.
  { change (len (@nil Q)) with 0. lia. }
  rewrite A2. split; reflexivity.
Qed.

(** C6: however the deliveries of the device, the turns of the worker
    thread, the refreshes of the display and the quit are interleaved,
    the beginning and the end of an engine call being separate events
    with anything in between, the thread [main] starts is the only one
    to call the engine and calls it synchronously: after every event of
    the engine record the number of calls in flight is 0 or 1, and that
    number is the number of threads inside the engine. *)
Theorem C6_single_flight
    (backend : Backend) (model : AsrModel) (sched : list Sched) (n : nat) :
  let s := sys_run backend model System_main sched in
  0 <= depth (firstn n (trace (sys_shared s))) <= 1 /\
  depth (trace (sys_shared s)) = in_flight (sys_threads s) /\
  in_flight (sys_threads s) <= 1.
Proof.
  intros s. subst s.
  destruct (flight_recorded_run backend model sched System_main
              (flight_recorded_fresh [Running []])) as [[Hd Hp] L].
  change (len (sys_threads System_main)) with 1 in L.
  rewrite L in Hp. split; [apply Hp |]. split; [exact Hd |].
  rewrite <- L. apply in_flight_bounds.
Qed.

(** C7: in every run of the pipeline the rolling buffer of the worker
    holds at most 48000 * 60 samples after each iteration; appending a
    block never leaves more than that, and what is kept is the most
    recent suffix of the old buffer followed by the block, the dropped
    samples being the oldest. *)
Theorem C7_rolling_buffer_capped
    (backend : Backend) (model : AsrModel) (acts : list Action)
    (src_buffer mono : list Q) :
  match worker (run backend model Pipeline_init acts) with
  | Running b => len b <= 48000 * 60
  | _ => True
  end /\
  len (append_capped src_buffer mono) <= 48000 * 60 /\
  exists dropped,
    src_buffer ++ mono = dropped ++ append_capped src_buffer mono /\
    len dropped = Z.max 0 (len src_buffer + len mono - 48000 * 60).
Proof.
  split; [| split].
  - now destruct (healthy_run backend model acts Pipeline_init healthy_init)
      as (_ & _ & H & _ & _).
  - rewrite len_append_capped. lia.
  - apply append_capped_suffix.
Qed.

(* ===================================================================== *)
(** ** Capture: the queue between the device and the worker *)
(* ===================================================================== *)

Lemma deliver_unbounded (frames : list ndarray) :
  forall w, maxsize (raw_q w) = 0 ->
    deliver frames w =
    Some (set_raw_q (mkQueue 0 (items (raw_q w) ++ frames)) w).
Proof.
  induction frames as [| f fs IH]; intros w H; simpl.
  - rewrite app_nil_r. destruct w as [[m its] tq c tr]. simpl in *.
    now subst m.
  - unfold audio_callback. rewrite (put_unbounded _ _ H).
    rewrite IH by reflexivity. simpl. unfold set_raw_q. simpl.
    now rewrite <- app_assoc.
Qed.

(** C3, as stated: no capacity bounds the capture queue, and nothing is
    dropped from it.  Three frames delivered to the fresh queue are all
    three in it, oldest first; and whatever capacity is proposed, some
    sequence of deliveries makes the queue longer. *)
Lemma C3_counterexample_queue_grows_without_bound :
  deliver [Arr1 [1%Q]; Arr1 [2%Q]; Arr1 [3%Q]] Shared_init =
    Some (mkShared (mkQueue 0 [Arr1 [1%Q]; Arr1 [2%Q]; Arr1 [3%Q]])
                   Queue_new 0%nat [] false) /\
  ~ (exists capacity : Z, forall frames : list ndarray,
       match deliver frames Shared_init with
       | Some w => qsize (raw_q w) <= capacity
       | None => True
       end).
Proof.
  split; [reflexivity |].
  intros [capacity H].
  specialize (H (repeat (Arr1 []) (S (Z.to_nat capacity)))).
  rewrite deliver_unbounded in H by reflexivity.
  change (len (repeat (Arr1 []) (S (Z.to_nat capacity))) <= capacity) in H.
  unfold len in H. rewrite repeat_length in H. lia.
Qed.

(** C3, amended: at any point of any run of the pipeline, every frame the
    capture callback delivers is appended to [raw_q], a FIFO queue without
    a bound: the callback never blocks, no queued frame is dropped, and
    the queue grows by one item for each delivery. *)
Theorem C3_capture_never_blocks_never_drops
    (backend : Backend) (model : AsrModel) (acts : list Action)
    (frames : list ndarray) :
  let w := shared (run backend model Pipeline_init acts) in
  exists w',
    deliver frames w = Some w' /\
    items (raw_q w') = items (raw_q w) ++ frames /\
    qsize (raw_q w') = qsize (raw_q w) + len frames.
Proof.
  intros w.
  destruct (healthy_run backend model acts Pipeline_init healthy_init)
    as (_ & _ & _ & H & _).
  fold w in H. rewrite (deliver_unbounded frames w H).
  eexists. split; [reflexivity |]. simpl. split; [reflexivity |].
  unfold qsize. apply len_app.
Qed.

Lemma span_at_rate (src_sr : Z) :
  int ((BLOCK_SEC + OVERLAP_SEC) * inject_Z src_sr) = 3 * src_sr.
Proof.
  unfold int, BLOCK_SEC, OVERLAP_SEC.
  change (Qnum (((5 # 2) + (1 # 2)) * inject_Z src_sr)) with (12 * src_sr).
  change (Z.pos (Qden (((5 # 2) + (1 # 2)) * inject_Z src_sr))) with 4.
  replace (12 * src_sr) with (3 * src_sr * 4) by lia.
  apply Z.quot_mul. discriminate.
Qed.

(** C5: whatever device is opened, the worker requires 144000 buffered
    samples, the span of [block + overlap] seconds at its assumed 48000
    Hz; that is the span at the negotiated rate only when the device runs
    at 48000 Hz.  At a device whose default sample rate is 44100 Hz the
    stream is opened at 44100 Hz, for which the span is 132300 samples. *)
Theorem C5_span_length_ignores_negotiated_rate (dev_info : DeviceInfo) :
  let src_sr := samplerate (audio_thread dev_info) in
  need_src_len = 144000 /\
  (need_src_len = int ((BLOCK_SEC + OVERLAP_SEC) * inject_Z src_sr) <->
   src_sr = 48000) /\
  samplerate (audio_thread (mkDeviceInfo 44100 2)) = 44100 /\
  int ((BLOCK_SEC + OVERLAP_SEC) * inject_Z 44100) = 132300.
Proof.
  intros src_sr. rewrite span_at_rate, need_src_len_val.
  repeat split; lia.
Qed.

(* ===================================================================== *)
(** ** The caption sink *)
(* ===================================================================== *)

Lemma lastn_app_lastn {A : Type} (n : nat) (l m : list A) :
  lastn n (lastn n l ++ m) = lastn n (l ++ m).
Proof.
  unfold lastn. rewrite !skipn_app, !length_app, !length_skipn, skipn_skipn.
  f_equal; f_equal; lia.
Qed.

Lemma len_lastn {A : Type} (n : nat) (l : list A) :
  len (lastn n l) <= Z.of_nat n.
Proof. unfold lastn, len. rewrite length_skipn. lia. Qed.

Lemma lastn_short {A : Type} (n : nat) (l : list A) :
  len l <= Z.of_nat n -> lastn n l = l.
Proof.
  unfold lastn, len. intros H.
  replace (List.length l - n)%nat with 0%nat by lia. apply skipn_0.
Qed.

Lemma sink_append_blank (lines : list string) (t : string) :
  truthy (strip t) = false -> sink_append lines t = lines.
Proof. unfold sink_append. now intros ->. Qed.

Lemma sink_append_nonblank (lines : list string) (t : string) :
  nonblank t -> sink_append lines t = lastn 4 (lines ++ [strip t]).
Proof.
  unfold nonblank, sink_append. intros ->.
  destruct (Z.gtb_spec (len (lines ++ [strip t])) KEEP_LINES) as [G | G].
  - unfold slice_from, lastn.
    change (- KEEP_LINES <? 0) with true. cbv iota.
    f_equal. unfold KEEP_LINES, len in *. lia.
  - symmetry. apply lastn_short. unfold KEEP_LINES in G. simpl. lia.
Qed.

Lemma len_sink_append (lines : list string) (t : string) :
  len lines <= KEEP_LINES -> len (sink_append lines t) <= KEEP_LINES.
Proof.
  intros H. destruct (truthy (strip t)) eqn:E.
  - rewrite sink_append_nonblank by exact E. apply (len_lastn 4).
  - now rewrite sink_append_blank.
Qed.

Lemma len_tick_loop (ts : list string) :
  forall lines, len lines <= KEEP_LINES ->
    len (tick_loop ts lines) <= KEEP_LINES.
Proof.
  induction ts as [| t ts IH]; intros lines H; simpl.
  - exact H.
  - apply IH. now apply len_sink_append.
Qed.

Lemma tick_loop_nonblank (ts : list string) :
  forall lines, Forall nonblank ts ->
    lastn 4 (tick_loop ts lines) = lastn 4 (lines ++ map strip ts).
Proof.
  induction ts as [| t ts IH]; intros lines H; simpl.
  - now rewrite app_nil_r.
  - inversion H; subst. rewrite IH by assumption.
    rewrite sink_append_nonblank by assumption.
    rewrite lastn_app_lastn, <- app_assoc. reflexivity.
Qed.

(** C8: starting from a sink of at most [KEEP_LINES] lines, after any
    sequence of appends the sink holds at most [KEEP_LINES] lines; when the
    appended texts are non-blank the sink is exactly the last four of the
    old lines followed by the new ones (trimmed), in their order, so the
    oldest are the ones evicted. *)
Theorem C8_caption_sink_keeps_last_lines (lines ts : list string) :
  len lines <= KEEP_LINES ->
  len (tick_loop ts lines) <= KEEP_LINES /\
  (Forall nonblank ts ->
   tick_loop ts lines = lastn 4 (lines ++ map strip ts)).
Proof.
  intros H. split.
  - now apply len_tick_loop.
  - intros Hts. rewrite <- tick_loop_nonblank by assumption.
    symmetry. apply lastn_short. now apply len_tick_loop.
Qed.

(** C8 at the scenario of six lines appended to the empty sink. *)
Lemma C8_caption_sink_keeps_last_lines_witness :
  len (tick_loop ["one"; "two"; "three"; "four"; "five"; "six"]%string [])
    <= KEEP_LINES /\
  tick_loop ["one"; "two"; "three"; "four"; "five"; "six"]%string [] =
    ["three"; "four"; "five"; "six"]%string.
Proof.
  destruct (C8_caption_sink_keeps_last_lines
              [] ["one"; "two"; "three"; "four"; "five"; "six"]%string)
    as [H1 H2].
  - vm_compute. discriminate.
  - split; [exact H1 |]. apply H2.
    repeat constructor.
Defined.

(* ===================================================================== *)
(** ** Stepping the pipeline through a dispatch *)
(* ===================================================================== *)

Lemma step_capture (backend : Backend) (model : AsrModel)
    (p : Pipeline) (indata : ndarray) :
  maxsize (raw_q (shared p)) = 0 ->
  step backend model p (Capture indata) =
  mkPipeline
    (set_raw_q (mkQueue 0 (items (raw_q (shared p)) ++ [indata])) (shared p))
    (worker p) (lines p).
Proof.
  intros H. simpl. unfold audio_callback.
  now rewrite (put_unbounded _ _ H).
Qed.

(** The worker finding a block in the queue and enough audio behind it:
    one window is dispatched, and the step ends as the engine does. *)
Lemma work_dispatches (backend : Backend) (model : AsrModel)
    (p : Pipeline) (src_buffer : list Q) (block : ndarray)
    (rest : list ndarray) :
  worker p = Running src_buffer ->
  terminate (shared p) = false ->
  raw_q (shared p) = mkQueue 0 (block :: rest) ->
  maxsize (text_q (shared p)) = 0 ->
  need_src_len <= len src_buffer + len (to_mono block) ->
  exists window,
    dispatched_window window /\
    step backend model p Work =
    match asr_transcribe_chunk backend model (calls (shared p)) window with
    | Ok text =>
        mkPipeline
          (mkShared (mkQueue 0 rest)
             (if truthy text
              then mkQueue 0 (items (text_q (shared p)) ++ [text])
              else text_q (shared p))
             (S (calls (shared p)))
             (trace (shared p) ++
              [EngineCall (calls (shared p)) window;
               EngineReturn (calls (shared p))])
             false)
          (Running (append_capped src_buffer (to_mono block)))
          (lines p)
    | Raise e =>
        mkPipeline
          (mkShared (mkQueue 0 rest) (text_q (shared p))
             (S (calls (shared p)))
             (trace (shared p) ++
              [EngineCall (calls (shared p)) window;
               EngineRaise (calls (shared p))])
             false)
          (Dead e)
          (lines p)
    end.
Proof.
  intros W Tm Hq Ht Hneed.
  assert (Hbuf : need_src_len <= len (append_capped src_buffer (to_mono block))).
  { rewrite len_append_capped, need_src_len_val in *. lia. }
  simpl. rewrite W, Tm.
  pose proof (asr_iteration_spec backend model src_buffer (shared p)) as I.
  destruct (asr_iteration backend model src_buffer (shared p)) as [r w'].
  inversion I as [G | b q G Hs | b q m text r' tq G Hl Hr Hd Ha Hp
                  | b q m e G Hl Hr Hd Ha]; subst;
    rewrite Hq in G; unfold get in G; simpl in G;
    try discriminate G; inversion G; subst b q; rewrite ?Tm.
  - lia.
  - exists (fit_window m). split; [exact Hd |]. rewrite Ha.
    rewrite (put_unbounded _ _ Ht) in Hp.
    destruct Hp as [(Tr & -> & ->) | [(Tr & E & ->) | (_ & E & _)]];
      try discriminate E; rewrite Tr.
    + reflexivity.
    + inversion E; subst tq. reflexivity.
  - exists (fit_window m). split; [exact Hd |]. now rewrite Ha.
Qed.

Lemma run_app (backend : Backend) (model : AsrModel) (p : Pipeline)
    (acts1 acts2 : list Action) :
  run backend model p (acts1 ++ acts2) =
  run backend model (run backend model p acts1) acts2.
Proof. unfold run. apply fold_left_app. Qed.

(** A block arriving at an idle worker with an empty queue, and the
    worker's next iteration, when enough audio is buffered. *)
Lemma capture_then_work (backend : Backend) (model : AsrModel)
    (p : Pipeline) (src_buffer : list Q) (block : ndarray) :
  worker p = Running src_buffer ->
  terminate (shared p) = false ->
  raw_q (shared p) = mkQueue 0 [] ->
  maxsize (text_q (shared p)) = 0 ->
  need_src_len <= len src_buffer + len (to_mono block) ->
  exists window,
    dispatched_window window /\
    run backend model p [Capture block; Work] =
    match asr_transcribe_chunk backend model (calls (shared p)) window with
    | Ok text =>
        mkPipeline
          (mkShared (mkQueue 0 [])
             (if truthy text
              then mkQueue 0 (items (text_q (shared p)) ++ [text])
              else text_q (shared p))
             (S (calls (shared p)))
             (trace (shared p) ++
              [EngineCall (calls (shared p)) window;
               EngineReturn (calls (shared p))])
             false)
          (Running (append_capped src_buffer (to_mono block)))
          (lines p)
    | Raise e =>
        mkPipeline
          (mkShared (mkQueue 0 []) (text_q (shared p))
             (S (calls (shared p)))
             (trace (shared p) ++
              [EngineCall (calls (shared p)) window;
               EngineRaise (calls (shared p))])
             false)
          (Dead e)
          (lines p)
    end.
Proof.
  intros W Tm Hq Ht Hneed.
  unfold run. cbn [fold_left].
  rewrite step_capture by (now rewrite Hq).
  rewrite Hq. cbn [items app].
  set (p1 := mkPipeline _ _ _).
  destruct (work_dispatches backend model p1 src_buffer block [])
    as [window [D E]]; try assumption; try reflexivity.
  exists window. split; [exact D | exact E].
Qed.

(** Once the worker thread has ended by an exception, nothing is
    dispatched any more and nothing reaches the display. *)
Lemma run_dead (backend : Backend) (model : AsrModel) (acts : list Action) :
  forall p e,
    worker p = Dead e ->
    items (text_q (shared p)) = [] ->
    let p' := run backend model p acts in
    worker p' = Dead e /\
    items (text_q (shared p')) = [] /\
    trace (shared p') = trace (shared p) /\
    lines p' = lines p.
Proof.
  unfold run. induction acts as [| a acts IH]; intros p e W T; cbn [fold_left].
  - auto.
  - assert (S : worker (step backend model p a) = Dead e /\
                items (text_q (shared (step backend model p a))) = [] /\
                trace (shared (step backend model p a)) = trace (shared p) /\
                lines (step backend model p a) = lines p).
    { destruct a as [indata | | |]; simpl.
      - unfold audio_callback.
        destruct (put (raw_q (shared p)) indata); simpl; auto.
      - rewrite W. auto.
      - destruct (terminate (shared p)); [auto |].
        rewrite T. simpl. auto.
      - auto. }
    destruct S as (W' & T' & Tr' & L').
    destruct (IH _ e W' T') as (A & B & C & D).
    repeat split; congruence.
Qed.

(** C1: in every run of the pipeline, every window handed to the
    transcription engine has exactly 40000 samples; it is the most recent
    40000 samples of the resampled span, which is the resampling from
    48000 Hz to 16000 Hz of 144000 native samples and always has 48000
    samples (so the case of a shorter span, for which the code has no
    padding, does not arise).  Such windows are dispatched: a first block
    of at least 144000 frames makes the worker hand one to the engine in
    its next iteration. *)
Theorem C1_dispatched_windows_have_target_length
    (backend : Backend) (model : AsrModel) (acts : list Action)
    (b1 : ndarray) :
  need_src_len <= len (to_mono b1) ->
  Forall
    (window_of_event (fun window =>
       len window = 40000 /\
       exists src_chunk mono16k older,
         len src_chunk = 144000 /\
         simple_resample src_chunk 48000 16000 = Ok mono16k /\
         len mono16k = 48000 /\
         mono16k = older ++ window))
    (trace (shared (run backend model Pipeline_init acts))) /\
  exists window,
    len window = 40000 /\
    hd_error (trace (shared (run backend model Pipeline_init
                               [Capture b1; Work]))) =
    Some (EngineCall 0 window).
Proof.
  intros Hneed. split.
  - destruct (healthy_run backend model acts Pipeline_init healthy_init)
      as (_ & H & _ & _ & _).
    eapply Forall_impl; [| exact H].
    intros [k window | k | k]; simpl; trivial.
    intros (chunk & m & older & Hc & Hr & Hm & Ho & Hw).
    split; [exact Hw |]. exists chunk, m, older. auto.
  - destruct (capture_then_work backend model Pipeline_init [] b1)
      as [window [D E]]; try reflexivity.
    { unfold len at 1. simpl. lia. }
    exists window. split.
    + destruct D as (chunk & m & older & _ & _ & _ & _ & Hw). exact Hw.
    + rewrite E.
      destruct (asr_transcribe_chunk backend model
                  (calls (shared Pipeline_init)) window); reflexivity.
Qed.

(** C1 at a run dispatching two windows of silence. *)
Lemma C1_dispatched_windows_have_target_length_witness :
  Forall
    (window_of_event (fun window =>
       len window = 40000 /\
       exists src_chunk mono16k older,
         len src_chunk = 144000 /\
         simple_resample src_chunk 48000 16000 = Ok mono16k /\
         len mono16k = 48000 /\
         mono16k = older ++ window))
    (trace (shared (run whisper model_empty_then_hello Pipeline_init
                      [Capture (Arr1 (repeat 0%Q (Z.to_nat 144000))); Work;
                       Capture (Arr1 [0%Q]); Work; Tick]))) /\
  exists window,
    len window = 40000 /\
    hd_error (trace (shared (run whisper model_empty_then_hello Pipeline_init
                               [Capture (Arr1 (repeat 0%Q (Z.to_nat 144000)));
                                Work]))) =
    Some (EngineCall 0 window).
Proof.
  apply (C1_dispatched_windows_have_target_length
           whisper model_empty_then_hello
           [Capture (Arr1 (repeat 0%Q (Z.to_nat 144000))); Work;
            Capture (Arr1 [0%Q]); Work; Tick]
           (Arr1 (repeat 0%Q (Z.to_nat 144000)))).
  vm_compute. discriminate.
Defined.

Lemma transcribe_raise_then_hello_first (backend : Backend) (window : list Q) :
  backend <> no_backend ->
  asr_transcribe_chunk backend model_raise_then_hello 0 window =
  Raise EngineError.
Proof. destruct backend; [reflexivity | reflexivity | congruence]. Qed.

(** C4, on an engine that raises at its first invocation and would answer
    ["hello"] to any later one: once the first window has been dispatched
    the worker thread is dead, and whatever happens next (blocks captured,
    worker scheduled, display refreshed) no second window is dispatched
    and no caption is shown. *)
Theorem C4_engine_failure_stops_the_worker
    (backend : Backend) (b1 : ndarray) (acts : list Action) :
  backend <> no_backend ->
  need_src_len <= len (to_mono b1) ->
  let p := run backend model_raise_then_hello Pipeline_init
             ([Capture b1; Work] ++ acts) in
  worker p = Dead EngineError /\
  (exists window,
     trace (shared p) = [EngineCall 0 window; EngineRaise 0]) /\
  lines p = [].
Proof.
  intros Hb Hneed p. subst p. rewrite run_app.
  destruct (capture_then_work backend model_raise_then_hello
              Pipeline_init [] b1) as [window [_ E]]; try reflexivity.
  { unfold len at 1. simpl. lia. }
  rewrite E. cbn [calls shared Pipeline_init Shared_init].
  rewrite (transcribe_raise_then_hello_first backend window Hb).
  set (p1 := mkPipeline _ _ _).
  destruct (run_dead backend model_raise_then_hello acts p1 EngineError)
    as (W & _ & Tr & L); try reflexivity.
  repeat split; [exact W | | exact L].
  exists window. exact Tr.
Qed.

(** C4 at three seconds of silence, then one more sample, a second
    iteration of the worker and a refresh of the display. *)
Lemma C4_engine_failure_stops_the_worker_witness :
  worker (run whisper model_raise_then_hello Pipeline_init
            ([Capture (Arr1 (repeat 0%Q (Z.to_nat 144000))); Work] ++
             [Capture (Arr1 [0%Q]); Work; Tick])) = Dead EngineError /\
  (exists window,
     trace (shared (run whisper model_raise_then_hello Pipeline_init
                      ([Capture (Arr1 (repeat 0%Q (Z.to_nat 144000))); Work] ++
                       [Capture (Arr1 [0%Q]); Work; Tick]))) =
     [EngineCall 0 window; EngineRaise 0]) /\
  lines (run whisper model_raise_then_hello Pipeline_init
           ([Capture (Arr1 (repeat 0%Q (Z.to_nat 144000))); Work] ++
            [Capture (Arr1 [0%Q]); Work; Tick])) = [].
Proof.
  apply (C4_engine_failure_stops_the_worker whisper
           (Arr1 (repeat 0%Q (Z.to_nat 144000)))
           [Capture (Arr1 [0%Q]); Work; Tick]).
  - discriminate.
  - vm_compute. discriminate.
Defined.

(* ===================================================================== *)
(** ** Blank text, from the engine to the sink *)
(* ===================================================================== *)

Lemma transcribe_empty_then_hello (k : nat) (window : list Q) :
  asr_transcribe_chunk whisper model_empty_then_hello k window =
  match k with
  | O => Ok EmptyString
  | S _ => Ok "hello"%string
  end.
Proof. destruct k; reflexivity. Qed.

(** C9: appending a text that is empty or only whitespace leaves the sink
    as it is; a non-blank text is stored trimmed, as the last line; and
    with an engine answering the empty text for a first window and
    ["hello"] for a second one, both windows are dispatched, only ["hello"]
    is queued for the display, and after the next refresh the sink holds
    exactly the one line ["hello"]. *)
Theorem C9_blank_text_never_reaches_the_sink
    (old : list string) (blank t : string) (b1 b2 : ndarray) :
  truthy (strip blank) = false ->
  nonblank t ->
  need_src_len <= len (to_mono b1) ->
  sink_append old blank = old /\
  sink_append old t = lastn 4 (old ++ [strip t]) /\
  let p := run whisper model_empty_then_hello Pipeline_init
             ([Capture b1; Work] ++ [Capture b2; Work]) in
  (exists windowA windowB,
     trace (shared p) =
     [EngineCall 0 windowA; EngineReturn 0;
      EngineCall 1 windowB; EngineReturn 1]) /\
  items (text_q (shared p)) = ["hello"%string] /\
  lines (step whisper model_empty_then_hello p Tick) = ["hello"%string].
Proof.
  intros Hblank Ht Hneed.
  split; [now apply sink_append_blank |].
  split; [now apply sink_append_nonblank |].
  intros p. subst p. rewrite run_app.
  destruct (capture_then_work whisper model_empty_then_hello
              Pipeline_init [] b1) as [windowA [_ EA]]; try reflexivity.
  { unfold len at 1. simpl. lia. }
  rewrite EA, transcribe_empty_then_hello.
  cbn [calls shared Pipeline_init Shared_init truthy text_q trace lines app].
  set (p1 := mkPipeline _ _ _).
  destruct (capture_then_work whisper model_empty_then_hello
              p1 (append_capped [] (to_mono b1)) b2)
    as [windowB [_ EB]]; try reflexivity.
  { rewrite len_append_capped, need_src_len_val in *.
    pose proof (len_nonneg (to_mono b2)). unfold len at 1. simpl. lia. }
  rewrite EB, transcribe_empty_then_hello.
  repeat split.
  exists windowA, windowB. reflexivity.
Qed.

(** C9 at a sink of one line, a text of three spaces, a padded text, and
    two windows of silence. *)
Lemma C9_blank_text_never_reaches_the_sink_witness :
  sink_append ["a"%string] "   "%string = ["a"%string] /\
  sink_append ["a"%string] " hi "%string =
    lastn 4 (["a"%string] ++ [strip " hi "%string]) /\
  let p := run whisper model_empty_then_hello Pipeline_init
             ([Capture (Arr1 (repeat 0%Q (Z.to_nat 144000))); Work] ++
              [Capture (Arr1 [0%Q]); Work]) in
  (exists windowA windowB,
     trace (shared p) =
     [EngineCall 0 windowA; EngineReturn 0;
      EngineCall 1 windowB; EngineReturn 1]) /\
  items (text_q (shared p)) = ["hello"%string] /\
  lines (step whisper model_empty_then_hello p Tick) = ["hello"%string].
Proof.
  apply (C9_blank_text_never_reaches_the_sink
           ["a"%string] "   "%string " hi "%string
           (Arr1 (repeat 0%Q (Z.to_nat 144000))) (Arr1 [0%Q])).
  - reflexivity.
  - reflexivity.
  - vm_compute. discriminate.
Defined.

(* ===================================================================== *)
(** ** The endpoints of the resampled signal *)
(* ===================================================================== *)

Lemma inject_Z_pos (d : Z) : 0 < d -> (0 < inject_Z d)%Q.
Proof. intros H. unfold Qlt. simpl. lia. Qed.

Lemma inject_Z_nonneg (i : Z) : 0 <= i -> (0 <= inject_Z i)%Q.
Proof. intros H. unfold Qle. simpl. lia. Qed.

Lemma fraction_bounds (i d : Z) :
  0 <= i <= d -> 0 < d ->
  (0 <= inject_Z i / inject_Z d /\ inject_Z i / inject_Z d <= 1)%Q.
Proof.
  intros [H0 H1] Hd. pose proof (inject_Z_pos d Hd) as Pd. split.
  - apply Qle_shift_div_l; [exact Pd |]. rewrite Qmult_0_l.
    now apply inject_Z_nonneg.
  - apply Qle_shift_div_r; [exact Pd |]. rewrite Qmult_1_l.
    rewrite <- Zle_Qle. exact H1.
Qed.

Lemma fraction_positive (i d : Z) :
  0 < i -> 0 < d -> (0 < inject_Z i / inject_Z d)%Q.
Proof.
  intros Hi Hd. apply Qlt_shift_div_l.
  - now apply inject_Z_pos.
  - rewrite Qmult_0_l. now apply inject_Z_pos.
Qed.

(** The abscissae of [np.linspace(0, 1, num)]: the first is 0, the others
    lie in (0, 1]. *)
Lemma linspace01_shape (num : Z) :
  1 <= num ->
  exists u0 us,
    linspace01 num = u0 :: us /\ (u0 == 0)%Q /\
    Forall (fun u => 0 < u /\ u <= 1)%Q us.
Proof.
  intros H. unfold linspace01.
  destruct (Z.leb_spec num 1) as [L | G].
  - assert (num = 1) by lia. subst num. exists 0%Q, [].
    split; [reflexivity | split; [reflexivity | constructor]].
  - destruct (Z.to_nat num) as [| k] eqn:E; [lia |].
    simpl seq. simpl map.
    eexists. eexists. split; [reflexivity |]. split.
    + unfold Qdiv. simpl inject_Z. ring.
    + apply Forall_forall. intros u Hu.
      apply in_map_iff in Hu. destruct Hu as [i [<- Hi]].
      apply in_seq in Hi. split.
      * apply fraction_positive; lia.
      * apply fraction_bounds; lia.
Qed.

Lemma linspace01_last (num : Z) (d : Q) :
  2 <= num -> (last (linspace01 num) d == 1)%Q.
Proof.
  intros H. unfold linspace01.
  destruct (Z.leb_spec num 1) as [L | G]; [lia |].
  destruct (Z.to_nat num) as [| k] eqn:E; [lia |].
  rewrite seq_S, map_app. simpl map. rewrite last_last.
  simpl Nat.add. replace (Z.of_nat k) with (num - 1) by lia.
  apply Qmult_inv_r. intros C.
  assert (P : (0 < inject_Z (num - 1))%Q) by (apply inject_Z_pos; lia).
  rewrite C in P. discriminate P.
Qed.

Lemma last_map_nonempty {A B : Type} (f : A -> B) (l : list A) (d : B) (d' : A) :
  l <> [] -> last (map f l) d = f (last l d').
Proof.
  intros H. rewrite (app_removelast_last d' H) at 1.
  rewrite map_app. simpl map. apply last_last.
Qed.

Lemma last_combine (xp fp : list Q) (d : Q * Q) :
  List.length xp = List.length fp ->
  snd (last (combine xp fp) d) = last fp (snd d).
Proof.
  revert fp. induction xp as [| u xp IH]; intros [| v fp] E; simpl in *;
    try reflexivity; try discriminate.
  injection E as E.
  destruct xp as [| u' xp], fp as [| v' fp]; try discriminate;
    try reflexivity.
  apply (IH (v' :: fp) E).
Qed.

Lemma last_cons_default {A : Type} (l : list A) :
  forall a d, last (a :: l) d = last l a.
Proof.
  induction l as [| b l IH]; intros a d; [reflexivity |].
  change (last (a :: b :: l) d) with (last (b :: l) d).
  now rewrite (IH b d), (IH b a).
Qed.

(** Right of every data point, [np.interp] returns the last value. *)
Lemma interp_from_right (x : Q) (rest : list (Q * Q)) :
  forall p0,
    Forall (fun p => fst p <= x)%Q rest ->
    interp_from x p0 rest = snd (last rest p0).
Proof.
  induction rest as [| p1 rest IH]; intros p0 H; [reflexivity |].
  inversion H as [| ? ? H1 H']; subst. simpl interp_from.
  apply Qle_bool_iff in H1. rewrite H1. rewrite (IH p1 H').
  now rewrite last_cons_default.
Qed.

(** On or left of the first data point, [np.interp] returns the first
    value, the other points lying to the right. *)
Lemma interp_from_left (x : Q) (rest : list (Q * Q)) (p0 : Q * Q) :
  (x <= fst p0)%Q ->
  Forall (fun p => x < fst p)%Q rest ->
  interp_from x p0 rest = snd p0.
Proof.
  intros H0 H. destruct rest as [| p1 rest]; [reflexivity |].
  inversion H as [| ? ? H1 _]; subst. simpl.
  destruct (Qle_bool (fst p1) x) eqn:E.
  - apply Qle_bool_iff in E. exfalso. apply (Qlt_not_le _ _ H1 E).
  - apply Qle_bool_iff in H0. now rewrite H0.
Qed.

(** X2: whenever the length computation of the resampler raises
    nothing, resampling a non-empty signal keeps its first sample as the
    first output sample, and, as soon as the output has two samples or
    more, its last sample as the last output sample. *)
Theorem X2_resample_keeps_endpoints
    (x0 : Q) (xs : list Q) (src_sr dst_sr : Z) :
  resample_defined (len (x0 :: xs)) src_sr dst_sr ->
  exists y,
    simple_resample (x0 :: xs) src_sr dst_sr = Ok y /\
    hd_error y = Some x0 /\
    (1 < len y -> last y x0 = last (x0 :: xs) x0).
Proof.
  intros Hsrc.
  destruct (simple_resample_cases (x0 :: xs) src_sr dst_sr Hsrc)
    as [y [E C]].
  exists y. split; [exact E |].
  destruct C as [[-> _] | [(m & _ & _ & _ & _ & ->)
                         | (m & _ & _ & Hn & Hm & ->)]].
  - split; [reflexivity | trivial].
  - split; [reflexivity |]. unfold len. simpl. lia.
  - destruct (linspace01_shape (len (x0 :: xs))) as (u0 & us & En & Hu0 & Hus);
      [lia |].
    destruct (linspace01_shape m) as (q0 & qs & Em & Hq0 & Hqs); [lia |].
    assert (Hlen : List.length us = List.length xs).
    { pose proof (len_linspace01 (len (x0 :: xs))) as L.
      rewrite En in L. unfold len in L. simpl in L. lia. }
    pose proof (linspace01_last m q0 ltac:(lia)) as Hlast.
    rewrite Em in Hlast.
    unfold interp. rewrite En, Em. simpl combine.
    assert (Hfst : Forall (fun p => 0 < fst p /\ fst p <= 1)%Q (combine us xs)).
    { apply Forall_forall. intros [u v] Hp. apply in_combine_l in Hp.
      rewrite Forall_forall in Hus. now apply Hus. }
    split.
    + simpl. f_equal. apply interp_from_left.
      * simpl. rewrite Hq0, Hu0. apply Qle_refl.
      * eapply Forall_impl; [| exact Hfst]. intros p [Hp _].
        now rewrite Hq0.
    + intros _.
      rewrite (last_map_nonempty _ (q0 :: qs) x0 q0) by discriminate.
      rewrite interp_from_right.
      * rewrite (last_combine us xs (u0, x0) Hlen). simpl snd.
        now rewrite last_cons_default.
      * eapply Forall_impl; [| exact Hfst]. intros p [_ Hp].
        now rewrite Hlast.
Qed.

(** X2 at five samples resampled from rate 2 to rate 3. *)
Lemma X2_resample_keeps_endpoints_witness :
  exists y,
    simple_resample [1; -1; 1 # 2; 0; 1 # 3]%Q 2 3 = Ok y /\
    hd_error y = Some 1%Q /\
    (1 < len y -> last y 1%Q = last [1; -1; 1 # 2; 0; 1 # 3]%Q 1%Q).
Proof.
  apply (X2_resample_keeps_endpoints 1%Q [-1; 1 # 2; 0; 1 # 3]%Q 2 3).
  right. right. exists 8. reflexivity.
Defined.

(* ===================================================================== *)
(** ** The rolling buffer as a sliding window *)
(* ===================================================================== *)

Lemma slice_from_neg_lastn {A : Type} (n : Z) (l : list A) :
  0 < n -> slice_from (- n) l = lastn (Z.to_nat n) l.
Proof.
  intros H. unfold slice_from, lastn.
  destruct (Z.ltb_spec (- n) 0) as [_ | C]; [| lia].
  f_equal. unfold len. lia.
Qed.

Lemma lastn_lastn {A : Type} (n m : nat) (l : list A) :
  (n <= m)%nat -> lastn n (lastn m l) = lastn n l.
Proof.
  intros H. unfold lastn. rewrite skipn_skipn, length_skipn.
  f_equal. lia.
Qed.

Lemma append_capped_lastn (src_buffer mono : list Q) :
  append_capped src_buffer mono =
  lastn (Z.to_nat (48000 * 60)) (src_buffer ++ mono).
Proof.
  unfold append_capped.
  destruct (Z.gtb_spec (len (src_buffer ++ mono)) (48000 * 60)) as [G | G].
  - change (-48000 * 60) with (- (48000 * 60)).
    apply slice_from_neg_lastn. lia.
  - symmetry. apply lastn_short. lia.
Qed.

Lemma Forall_skipn {A : Type} (P : A -> Prop) (n : nat) (l : list A) :
  Forall P l -> Forall P (skipn n l).
Proof.
  intros H. rewrite <- (firstn_skipn n l) in H.
  apply Forall_app in H. tauto.
Qed.

Lemma Forall_slice_from {A : Type} (P : A -> Prop) (i : Z) (l : list A) :
  Forall P l -> Forall P (slice_from i l).
Proof.
  intros H. unfold slice_from. destruct (i <? 0); now apply Forall_skipn.
Qed.

(** X3: capping the rolling buffer after every block comes to the same as
    capping it once: appending two blocks in turn leaves the buffer that
    appending their concatenation leaves. *)
Theorem X3_append_capped_composes (src_buffer mono1 mono2 : list Q) :
  append_capped (append_capped src_buffer mono1) mono2 =
  append_capped src_buffer (mono1 ++ mono2).
Proof.
  rewrite !append_capped_lastn, lastn_app_lastn.
  now rewrite app_assoc.
Qed.

(** X4: the span the worker resamples slides over the audio: once the
    buffer holds the 144000 samples of a span, appending a block of at
    most that many samples makes the new span the old one without its
    oldest [len(mono)] samples, followed by the block. *)
Theorem X4_span_slides (src_buffer mono : list Q) :
  need_src_len <= len src_buffer ->
  len mono <= need_src_len ->
  slice_from (- need_src_len) (append_capped src_buffer mono) =
  skipn (List.length mono) (slice_from (- need_src_len) src_buffer) ++ mono.
Proof.
  intros Hb Hm. rewrite need_src_len_val in *.
  rewrite !slice_from_neg_lastn by lia.
  rewrite append_capped_lastn, lastn_lastn by lia.
  unfold lastn, len in *.
  rewrite skipn_app, skipn_skipn, length_app.
  replace (List.length src_buffer + List.length mono - Z.to_nat 144000
           - List.length src_buffer)%nat with 0%nat by lia.
  rewrite skipn_0. f_equal. f_equal. lia.
Qed.

(** X4 at a buffer of three seconds of silence and a block of two
    samples. *)
Lemma X4_span_slides_witness :
  slice_from (- need_src_len)
    (append_capped (repeat 0%Q (Z.to_nat 144000)) [1; 2]%Q) =
  skipn (List.length [1; 2]%Q)
    (slice_from (- need_src_len) (repeat 0%Q (Z.to_nat 144000)))
  ++ [1; 2]%Q.
Proof.
  apply (X4_span_slides (repeat 0%Q (Z.to_nat 144000)) [1; 2]%Q).
  - vm_compute. discriminate.
  - vm_compute. discriminate.
Defined.

(* ===================================================================== *)
(** ** The fold to mono *)
(* ===================================================================== *)

Lemma inject_Z_len_cons {A : Type} (a : A) (l : list A) :
  (inject_Z (len (a :: l)) == inject_Z (len l) + 1)%Q.
Proof.
  unfold len. simpl List.length. rewrite Nat2Z.inj_succ, <- Z.add_1_r.
  rewrite inject_Z_plus. reflexivity.
Qed.

Lemma sum_within (lo hi : Q) (row : list Q) :
  Forall (within lo hi) row ->
  (lo * inject_Z (len row) <= fold_right Qplus 0 row /\
   fold_right Qplus 0 row <= hi * inject_Z (len row))%Q.
Proof.
  induction 1 as [| a row [La Ha] _ [IHl IHh]].
  - change (inject_Z (len (@nil Q))) with 0%Q. simpl fold_right. split; lra.
  - rewrite inject_Z_len_cons. simpl fold_right.
    set (n := inject_Z (len row)) in *. split; nra.
Qed.

Lemma mean_within (lo hi : Q) (row : list Q) :
  row <> [] -> Forall (within lo hi) row -> within lo hi (mean row).
Proof.
  intros Hne H. destruct (sum_within lo hi row H) as [Hl Hh].
  assert (P : (0 < inject_Z (len row))%Q).
  { apply inject_Z_pos. destruct row; [congruence |].
    unfold len. simpl. lia. }
  unfold mean, within. split.
  - apply Qle_shift_div_l; assumption.
  - apply Qle_shift_div_r; assumption.
Qed.

Lemma to_mono_within (block : ndarray) :
  block_in_range block -> Forall (within (-1) 1) (to_mono block).
Proof.
  destruct block as [v | rows]; simpl; intros H; [exact H |].
  apply Forall_forall. intros s Hs. apply in_map_iff in Hs.
  destruct Hs as [row [<- Hrow]].
  rewrite Forall_forall in H. destruct (H row Hrow) as [Hne Hin].
  now apply mean_within.
Qed.

(** X5: folding a block to mono yields one sample per frame, and samples
    within [-1, 1] when the samples of the block are: the mean of a
    frame's channels lies between its smallest and largest channel. *)
Theorem X5_to_mono_in_range (block : ndarray) :
  block_in_range block ->
  Forall (within (-1) 1) (to_mono block) /\
  len (to_mono block) =
    match block with Arr1 v => len v | Arr2 rows => len rows end.
Proof.
  intros H. split; [now apply to_mono_within |].
  destruct block as [v | rows]; [reflexivity | apply len_map].
Qed.

(** X5 at two stereo frames. *)
Lemma X5_to_mono_in_range_witness :
  Forall (within (-1) 1) (to_mono (Arr2 [[1; -1]; [1 # 2; 1 # 4]]%Q)) /\
  len (to_mono (Arr2 [[1; -1]; [1 # 2; 1 # 4]]%Q)) =
    len [[1; -1]; [1 # 2; 1 # 4]]%Q.
Proof.
  apply (X5_to_mono_in_range (Arr2 [[1; -1]; [1 # 2; 1 # 4]]%Q)).
  repeat constructor; try discriminate; intros C; discriminate C.
Defined.

(* ===================================================================== *)
(** ** The worker consuming blocks *)
(* ===================================================================== *)

(** One iteration of a running worker on a non-empty queue, with an engine
    that does not raise: the oldest block is consumed into the buffer, and
    the engine is invoked when the buffer is long enough. *)
Lemma work_consumes (backend : Backend) (model : AsrModel)
    (p : Pipeline) (src_buffer : list Q) (block : ndarray)
    (rest : list ndarray) :
  never_raises backend model ->
  worker p = Running src_buffer ->
  terminate (shared p) = false ->
  raw_q (shared p) = mkQueue 0 (block :: rest) ->
  maxsize (text_q (shared p)) = 0 ->
  let p' := step backend model p Work in
  worker p' = Running (append_capped src_buffer (to_mono block)) /\
  raw_q (shared p') = mkQueue 0 rest /\
  maxsize (text_q (shared p')) = 0 /\
  terminate (shared p') = false /\
  calls (shared p') =
    if need_src_len <=? len (append_capped src_buffer (to_mono block))
    then S (calls (shared p))
    else calls (shared p).
Proof.
  intros Hnr W Tm Hq Ht p'. subst p'. simpl. rewrite W, Tm.
  pose proof (asr_iteration_spec backend model src_buffer (shared p)) as I.
  destruct (asr_iteration backend model src_buffer (shared p)) as [r w'].
  inversion I as [G | b q G Hs | b q m text r' tq G Hl Hr Hd Ha Hp
                  | b q m e G Hl Hr Hd Ha]; subst;
    rewrite Hq in G; unfold get in G; simpl in G;
    try discriminate G; inversion G; subst b q.
  - simpl. repeat split; try assumption.
    destruct (Z.leb_spec need_src_len
                (len (append_capped src_buffer (to_mono block)))); [lia |].
    reflexivity.
  - rewrite (put_unbounded _ _ Ht) in Hp.
    assert (Hr' : r = Done (append_capped src_buffer (to_mono block)) /\
                  maxsize tq = 0).
    { destruct Hp as [(_ & -> & ->) | [(_ & E & ->) | (_ & E & _)]];
        try discriminate E; split; try reflexivity; try assumption.
      now inversion E. }
    destruct Hr' as [-> Htq]. simpl. repeat split; try assumption.
    destruct (Z.leb_spec need_src_len
                (len (append_capped src_buffer (to_mono block)))); [| lia].
    reflexivity.
  - destruct (Hnr (calls (shared p)) (fit_window m)) as [text Ht'].
    congruence.
Qed.

(** A pipeline whose worker is running on [src_buffer] with nothing
    waiting in the capture queue. *)
Lemma capture_work_ready (backend : Backend) (model : AsrModel)
    (p : Pipeline) (src_buffer : list Q) (block : ndarray) :
  never_raises backend model ->
  worker p = Running src_buffer ->
  terminate (shared p) = false ->
  raw_q (shared p) = mkQueue 0 [] ->
  maxsize (text_q (shared p)) = 0 ->
  let p' := run backend model p [Capture block; Work] in
  worker p' = Running (append_capped src_buffer (to_mono block)) /\
  raw_q (shared p') = mkQueue 0 [] /\
  maxsize (text_q (shared p')) = 0 /\
  terminate (shared p') = false /\
  calls (shared p') =
    if need_src_len <=? len (append_capped src_buffer (to_mono block))
    then S (calls (shared p))
    else calls (shared p).
Proof.
  intros Hnr W Tm Hq Ht p'. subst p'. unfold run. cbn [fold_left].
  rewrite step_capture by (now rewrite Hq).
  rewrite Hq. cbn [items app].
  set (p1 := mkPipeline _ _ _).
  apply (work_consumes backend model p1 src_buffer block [] Hnr);
    try assumption; reflexivity.
Qed.

Lemma run_capture_work_each (backend : Backend) (model : AsrModel)
    (blocks : list ndarray) :
  never_raises backend model ->
  forall p heard,
    worker p = Running (lastn (Z.to_nat (48000 * 60)) heard) ->
    terminate (shared p) = false ->
    raw_q (shared p) = mkQueue 0 [] ->
    maxsize (text_q (shared p)) = 0 ->
    let p' := run backend model p (capture_work_each blocks) in
    worker p' =
      Running (lastn (Z.to_nat (48000 * 60))
                 (heard ++ List.concat (map to_mono blocks))) /\
    (need_src_len <= len heard ->
     calls (shared p') = (calls (shared p) + List.length blocks)%nat).
Proof.
  intros Hnr. remember (Z.to_nat (48000 * 60)) as cap eqn:Ecap.
  induction blocks as [| b bs IH]; intros p heard W Tm Hq Ht.
  - change (capture_work_each []) with (@nil Action).
    change (List.concat (map to_mono [])) with (@nil Q).
    unfold run. cbn [fold_left List.length]. rewrite app_nil_r.
    split; [exact W | intros _; lia].
  - change (capture_work_each (b :: bs))
      with ([Capture b; Work] ++ capture_work_each bs).
    intros p'. subst p'. rewrite run_app.
    destruct (capture_work_ready backend model p _ b Hnr W Tm Hq Ht)
      as (W1 & Hq1 & Ht1 & Tm1 & Hc1).
    rewrite append_capped_lastn, <- Ecap, lastn_app_lastn in W1, Hc1.
    destruct (IH _ (heard ++ to_mono b) W1 Tm1 Hq1 Ht1) as [W2 Hc2].
    split.
    + rewrite W2. change (map to_mono (b :: bs))
        with (to_mono b :: map to_mono bs).
      rewrite concat_cons, app_assoc. reflexivity.
    + intros Hn. rewrite Hc2 by (rewrite len_app;
        pose proof (len_nonneg (to_mono b)); lia).
      rewrite Hc1. cbn [List.length].
      destruct (Z.leb_spec need_src_len (len (lastn cap (heard ++ to_mono b))))
        as [_ | C]; [lia |].
      exfalso. rewrite Ecap in C.
      rewrite <- append_capped_lastn, len_append_capped in C.
      rewrite need_src_len_val in *.
      pose proof (len_nonneg (to_mono b)). lia.
Qed.

(** X6: with an engine that does not raise, after the worker has consumed
    the captured blocks one by one its rolling buffer is the most recent
    48000 * 60 samples of their mono folds, concatenated in the order of
    capture. *)
Theorem X6_buffer_is_recent_audio
    (backend : Backend) (model : AsrModel) (blocks : list ndarray) :
  never_raises backend model ->
  worker (run backend model Pipeline_init (capture_work_each blocks)) =
  Running (lastn (Z.to_nat (48000 * 60)) (List.concat (map to_mono blocks))).
Proof.
  intros Hnr.
  destruct (run_capture_work_each backend model blocks Hnr Pipeline_init [])
    as [W _]; try reflexivity.
  exact W.
Qed.

(** X6 at three small blocks, one of them stereo. *)
Lemma X6_buffer_is_recent_audio_witness :
  worker (run whisper model_empty_then_hello Pipeline_init
            (capture_work_each
               [Arr1 [1; 2]%Q; Arr2 [[1; 0]; [0; 0]]%Q; Arr1 [3]%Q])) =
  Running (lastn (Z.to_nat (48000 * 60))
             (List.concat (map to_mono
                [Arr1 [1; 2]%Q; Arr2 [[1; 0]; [0; 0]]%Q; Arr1 [3]%Q]))).
Proof.
  apply (X6_buffer_is_recent_audio whisper model_empty_then_hello
           [Arr1 [1; 2]%Q; Arr2 [[1; 0]; [0; 0]]%Q; Arr1 [3]%Q]).
  intros k window. destruct k; eexists; reflexivity.
Defined.

(** X7: with an engine that does not raise, once a first block has filled
    the buffer with the 144000 samples of a span, every block the worker
    consumes, whatever its size, makes it invoke the engine once: after
    that first block and [n] more, the engine has been invoked [n + 1]
    times. *)
Theorem X7_every_block_dispatches
    (backend : Backend) (model : AsrModel)
    (b1 : ndarray) (blocks : list ndarray) :
  never_raises backend model ->
  need_src_len <= len (to_mono b1) ->
  calls (shared (run backend model Pipeline_init
                   (capture_work_each (b1 :: blocks)))) =
  S (List.length blocks).
Proof.
  intros Hnr Hneed.
  change (capture_work_each (b1 :: blocks))
    with ([Capture b1; Work] ++ capture_work_each blocks).
  rewrite run_app.
  destruct (capture_work_ready backend model Pipeline_init [] b1 Hnr)
    as (W1 & Hq1 & Ht1 & Tm1 & Hc1); try reflexivity.
  rewrite append_capped_lastn in W1.
  change ([] ++ to_mono b1) with (to_mono b1) in W1.
  destruct (run_capture_work_each backend model blocks Hnr _ (to_mono b1)
              W1 Tm1 Hq1 Ht1) as [_ Hc2].
  rewrite (Hc2 Hneed), Hc1.
  destruct (Z.leb_spec need_src_len (len (append_capped [] (to_mono b1))))
    as [_ | C]; [reflexivity |].
  exfalso. rewrite len_append_capped, need_src_len_val in *.
  change (len (@nil Q)) with 0 in C. lia.
Qed.

(** X7 at three seconds of silence followed by an empty block and a block
    of one sample. *)
Lemma X7_every_block_dispatches_witness :
  calls (shared (run whisper model_empty_then_hello Pipeline_init
                   (capture_work_each
                      (Arr1 (repeat 0%Q (Z.to_nat 144000))
                       :: [Arr1 []; Arr1 [0%Q]])))) =
  S (List.length [Arr1 []; Arr1 [0%Q]]).
Proof.
  apply (X7_every_block_dispatches whisper model_empty_then_hello
           (Arr1 (repeat 0%Q (Z.to_nat 144000))) [Arr1 []; Arr1 [0%Q]]).
  - intros k window. destruct k; eexists; reflexivity.
  - vm_compute. discriminate.
Defined.

(* ===================================================================== *)
(** ** The range of the samples, from capture to the engine *)
(* ===================================================================== *)

Lemma append_capped_within (lo hi : Q) (src_buffer mono : list Q) :
  Forall (within lo hi) src_buffer -> Forall (within lo hi) mono ->
  Forall (within lo hi) (append_capped src_buffer mono).
Proof.
  intros Hb Hm. unfold append_capped.
  assert (H : Forall (within lo hi) (src_buffer ++ mono))
    by (apply Forall_app; auto).
  destruct (_ >? _); [now apply Forall_slice_from | exact H].
Qed.

Lemma fit_window_within (lo hi : Q) (mono16k : list Q) :
  Forall (within lo hi) mono16k -> Forall (within lo hi) (fit_window mono16k).
Proof.
  intros H. unfold fit_window.
  destruct (_ >=? _); [now apply Forall_slice_from | exact H].
Qed.

Lemma audio_in_range_step (backend : Backend) (model : AsrModel)
    (p : Pipeline) (a : Action) :
  capture_in_range a -> audio_in_range p ->
  audio_in_range (step backend model p a).
Proof.
  intros Ha (Hq & Hb & Ht). destruct a as [indata | | |]; simpl.
  - unfold audio_callback, put.
    destruct (full (raw_q (shared p))); [repeat split; assumption |].
    repeat split; try assumption. simpl.
    apply Forall_app. split; [assumption | now repeat constructor].
  - destruct (worker p) as [src_buffer | e | |] eqn:W.
    2, 3, 4: repeat split; try assumption; now rewrite W.
    destruct (terminate (shared p)) eqn:Tm.
    { repeat split; simpl; trivial. }
    pose proof (asr_iteration_spec backend model src_buffer (shared p)) as I.
    destruct (asr_iteration backend model src_buffer (shared p)) as [r w'].
    assert (Step : forall block q,
              get (raw_q (shared p)) = Some (block, q) ->
              Forall block_in_range (items q) /\
              Forall (within (-1) 1)
                     (append_capped src_buffer (to_mono block))).
    { intros block q G. apply get_maxsize in G. destruct G as [_ G].
      rewrite G in Hq. inversion Hq as [| ? ? Hblock Hrest]; subst.
      split; [exact Hrest |].
      apply append_capped_within; [exact Hb |].
      now apply to_mono_within. }
    assert (Win : forall block q m,
              get (raw_q (shared p)) = Some (block, q) ->
              simple_resample
                (slice_from (- need_src_len)
                   (append_capped src_buffer (to_mono block)))
                approx_src_sr TARGET_SR = Ok m ->
              Forall (within (-1) 1) (fit_window m)).
    { intros block q m G E. apply fit_window_within.
      apply (simple_resample_within _ _ _ _ _ _ E).
      apply Forall_slice_from. now apply (Step block q). }
    inversion I as [G | b q G Hs | b q m text r' tq G Hl Hr Hd Hasr Hp
                    | b q m e G Hl Hr Hd Hasr]; subst; simpl.
    + repeat split; assumption.
    + destruct (Step b q G). repeat split; assumption.
    + destruct (Step b q G) as [Sq Sb].
      assert (Tr : Forall (window_of_event (Forall (within (-1) 1)))
                (trace (shared p) ++
                 [EngineCall (calls (shared p)) (fit_window m);
                  EngineReturn (calls (shared p))])).
      { apply Forall_app. split; [assumption |].
        repeat constructor. simpl. now apply (Win b q). }
      destruct r as [buf | e |]; repeat split; simpl; try assumption.
      destruct Hp as [(_ & _ & E) | [(_ & _ & E) | (_ & _ & _ & E)]];
        inversion E; subst; assumption.
    + destruct (Step b q G) as [Sq Sb].
      repeat split; simpl; try assumption.
      apply Forall_app. split; [assumption |].
      repeat constructor. simpl. now apply (Win b q).
  - destruct (terminate (shared p)); repeat split; assumption.
  - repeat split; assumption.
Qed.

Lemma audio_in_range_run (backend : Backend) (model : AsrModel)
    (acts : list Action) :
  Forall capture_in_range acts ->
  forall p, audio_in_range p -> audio_in_range (run backend model p acts).
Proof.
  unfold run. induction 1 as [| a acts Ha _ IH]; intros p H; simpl.
  - exact H.
  - apply IH. now apply audio_in_range_step.
Qed.

(** X8: if every sample of every captured block lies in [-1, 1], then in
    any run of the pipeline every sample of every window handed to the
    transcription engine lies in [-1, 1], and so does every sample of the
    rolling buffer. *)
Theorem X8_engine_input_in_range
    (backend : Backend) (model : AsrModel) (acts : list Action) :
  Forall capture_in_range acts ->
  Forall (window_of_event (Forall (within (-1) 1)))
         (trace (shared (run backend model Pipeline_init acts))) /\
  match worker (run backend model Pipeline_init acts) with
  | Running src_buffer => Forall (within (-1) 1) src_buffer
  | _ => True
  end.
Proof.
  intros H.
  destruct (audio_in_range_run backend model acts H Pipeline_init)
    as (_ & Hb & Ht).
  - repeat split; constructor.
  - split; assumption.
Qed.

(** X8 at a run capturing a stereo block and a mono block. *)
Lemma X8_engine_input_in_range_witness :
  Forall (window_of_event (Forall (within (-1) 1)))
         (trace (shared (run whisper model_empty_then_hello Pipeline_init
                           [Capture (Arr2 [[1; -1]; [1 # 2; 0]]%Q); Work;
                            Capture (Arr1 [1 # 3]%Q); Work; Tick]))) /\
  match worker (run whisper model_empty_then_hello Pipeline_init
                  [Capture (Arr2 [[1; -1]; [1 # 2; 0]]%Q); Work;
                   Capture (Arr1 [1 # 3]%Q); Work; Tick]) with
  | Running src_buffer => Forall (within (-1) 1) src_buffer
  | _ => True
  end.
Proof.
  apply (X8_engine_input_in_range whisper model_empty_then_hello
           [Capture (Arr2 [[1; -1]; [1 # 2; 0]]%Q); Work;
            Capture (Arr1 [1 # 3]%Q); Work; Tick]).
  repeat constructor; try discriminate; intros C; discriminate C.
Defined.

(* ===================================================================== *)
(** ** Trimming *)
(* ===================================================================== *)

Lemma lstrip_no_leading_space (s : string) : no_leading_space (lstrip s).
Proof.
  induction s as [| c s IH]; simpl; [exact I |].
  destruct (isspace c) eqn:E; [exact IH | exact E].
Qed.

Lemma lstrip_fixed (s : string) : no_leading_space s -> lstrip s = s.
Proof. destruct s as [| c s]; simpl; [reflexivity | now intros ->]. Qed.

Lemma rstrip_idem (s : string) : rstrip (rstrip s) = rstrip s.
Proof.
  induction s as [| c s IH]; simpl; [reflexivity |].
  destruct (rstrip s) as [| c' r] eqn:E.
  - destruct (isspace c) eqn:Ec; simpl; [reflexivity | now rewrite Ec].
  - change (rstrip (String c (String c' r)))
      with (match rstrip (String c' r) with
            | EmptyString =>
                if isspace c then EmptyString else String c EmptyString
            | r' => String c r'
            end).
    now rewrite IH.
Qed.

Lemma rstrip_keeps_head (c : ascii) (s : string) :
  isspace c = false -> exists r, rstrip (String c s) = String c r.
Proof.
  intros H. simpl. destruct (rstrip s) as [| c' r].
  - rewrite H. now exists EmptyString.
  - now exists (String c' r).
Qed.

Lemma rstrip_no_leading_space (s : string) :
  no_leading_space s -> no_leading_space (rstrip s).
Proof.
  destruct s as [| c s]; [trivial |]. intros H.
  destruct (rstrip_keeps_head c s H) as [r ->]. exact H.
Qed.

Lemma strip_trimmed (s : string) : trimmed (strip s).
Proof.
  unfold trimmed, strip.
  rewrite (lstrip_fixed (rstrip (lstrip s))).
  - apply rstrip_idem.
  - apply rstrip_no_leading_space, lstrip_no_leading_space.
Qed.

Lemma strip_no_leading_space (s : string) : no_leading_space (strip s).
Proof. apply rstrip_no_leading_space, lstrip_no_leading_space. Qed.

(** A text beginning with something else than whitespace does not strip to
    the empty text. *)
Lemma strip_nonempty (c : ascii) (s : string) :
  isspace c = false -> truthy (strip (String c s)) = true.
Proof.
  intros H. unfold strip. rewrite lstrip_fixed by exact H.
  destruct (rstrip_keeps_head c s H) as [r ->]. reflexivity.
Qed.

Lemma join_head (sep p : string) (ps : list string) :
  exists tail, join sep (p :: ps) = (p ++ tail)%string.
Proof.
  destruct ps as [| q qs].
  - exists EmptyString. simpl.
    induction p as [| c p IH]; simpl; [reflexivity | now rewrite <- IH].
  - now exists (sep ++ join sep (q :: qs))%string.
Qed.

Lemma filter_truthy_nil (f : option string -> string) (segs : list (option string)) :
  filter truthy (map f segs) = [] <->
  Forall (fun seg => truthy (f seg) = false) segs.
Proof.
  induction segs as [| seg segs IH]; simpl.
  - split; [constructor | reflexivity].
  - destruct (truthy (f seg)) eqn:E.
    + split; [discriminate |]. intros H. inversion H; congruence.
    + rewrite IH. split; [now constructor | now inversion 1].
Qed.

Lemma filter_truthy_head (f : option string -> string)
    (segs : list (option string)) (p : string) (ps : list string) :
  filter truthy (map f segs) = p :: ps ->
  truthy p = true /\ exists seg, p = f seg.
Proof.
  intros E. assert (H : In p (filter truthy (map f segs)))
    by (rewrite E; now left).
  apply filter_In in H. destruct H as [Hin Ht].
  apply in_map_iff in Hin. destruct Hin as [seg [<- _]].
  split; [exact Ht | now exists seg].
Qed.

(** X9: whatever the backend and whatever the engine answers, the text
    [asr_transcribe_chunk] returns has no whitespace at either end. *)
Theorem X9_transcript_is_trimmed
    (backend : Backend) (model : AsrModel) (k : nat) (mono16k : list Q)
    (text : string) :
  asr_transcribe_chunk backend model k mono16k = Ok text ->
  trimmed text.
Proof.
  unfold asr_transcribe_chunk. destruct backend.
  - destruct (faster_transcribe model k mono16k); [| discriminate].
    intros E. inversion E. apply strip_trimmed.
  - destruct (whisper_transcribe model k mono16k); [| discriminate].
    intros E. inversion E. apply strip_trimmed.
  - intros E. inversion E. reflexivity.
Qed.

(** X9 at openai-whisper answering a text padded with spaces. *)
Lemma X9_transcript_is_trimmed_witness : trimmed "hi there"%string.
Proof.
  apply (X9_transcript_is_trimmed whisper
           (mkAsrModel (fun _ _ => Raise EngineError)
                       (fun _ _ => Ok (Some "  hi there  "%string)))
           0 [] "hi there"%string).
  reflexivity.
Defined.

(** X10: with faster-whisper, the transcript of a window is the empty text
    exactly when every segment the engine yields has a missing or blank
    text; one segment with a non-blank text makes it non-empty. *)
Theorem X10_faster_transcript_empty_iff_all_blank
    (model : AsrModel) (k : nat) (mono16k : list Q)
    (segments : list (option string)) :
  faster_transcribe model k mono16k = Ok segments ->
  (asr_transcribe_chunk faster model k mono16k = Ok EmptyString <->
   Forall blank_segment segments).
Proof.
  intros E. unfold asr_transcribe_chunk. rewrite E.
  rewrite <- (filter_truthy_nil (fun seg => strip (or_empty seg)) segments).
  destruct (filter truthy
              (map (fun seg => strip (or_empty seg)) segments))
    as [| p ps] eqn:F.
  - split; reflexivity.
  - split; [| discriminate]. intros H. exfalso.
    destruct (filter_truthy_head _ _ _ _ F) as [Hp [seg Hs]].
    pose proof (strip_no_leading_space (or_empty seg)) as Hc.
    rewrite <- Hs in Hc.
    destruct (join_head " " p ps) as [tail J]. rewrite J in H.
    destruct p as [| c p']; [discriminate Hp |].
    simpl in Hc. inversion H as [H'].
    pose proof (strip_nonempty c (p' ++ tail)%string Hc) as N.
    change (String c p' ++ tail)%string
      with (String c (p' ++ tail)%string) in H'.
    rewrite H' in N. discriminate N.
Qed.

(** X10 at an engine yielding a blank segment, a missing text and a
    segment of speech. *)
Lemma X10_faster_transcript_empty_iff_all_blank_witness :
  asr_transcribe_chunk faster
    (mkAsrModel
       (fun _ _ => Ok [Some "  "%string; None; Some " hi "%string])
       (fun _ _ => Raise EngineError)) 0 [] = Ok EmptyString <->
  Forall blank_segment [Some "  "%string; None; Some " hi "%string].
Proof.
  apply (X10_faster_transcript_empty_iff_all_blank
           (mkAsrModel
              (fun _ _ => Ok [Some "  "%string; None; Some " hi "%string])
              (fun _ _ => Raise EngineError)) 0 []).
  reflexivity.
Defined.

(* ===================================================================== *)
(** ** What the overlay shows *)
(* ===================================================================== *)

Lemma sink_append_caption_lines (old : list string) (t : string) :
  Forall caption_line old -> Forall caption_line (sink_append old t).
Proof.
  intros H. unfold sink_append.
  destruct (truthy (strip t)) eqn:E; [| exact H].
  assert (H' : Forall caption_line (old ++ [strip t])).
  { apply Forall_app. split; [exact H |].
    repeat constructor; [exact E | apply strip_trimmed]. }
  destruct (_ >? _); [now apply Forall_slice_from | exact H'].
Qed.

Lemma tick_loop_caption_lines (waiting : list string) :
  forall old, Forall caption_line old ->
    Forall caption_line (tick_loop waiting old).
Proof.
  induction waiting as [| t ts IH]; intros old H; simpl; [exact H |].
  apply IH. now apply sink_append_caption_lines.
Qed.

Lemma lines_step (backend : Backend) (model : AsrModel)
    (p : Pipeline) (a : Action) :
  lines (step backend model p a) =
  match a with
  | Tick =>
      if terminate (shared p) then lines p
      else tick_loop (items (text_q (shared p))) (lines p)
  | _ => lines p
  end.
Proof.
  destruct a as [indata | | |]; simpl.
  - destruct (audio_callback indata (shared p)); reflexivity.
  - destruct (worker p) as [b | e | |]; try reflexivity.
    destruct (terminate (shared p)); [reflexivity |].
    destruct (asr_iteration backend model b (shared p)) as [[b' | e |] w];
      reflexivity.
  - destruct (terminate (shared p)); reflexivity.
  - reflexivity.
Qed.

(** X11: in every run of the pipeline, whatever the engine answers, the
    overlay holds at most [KEEP_LINES] lines, and each of them is
    non-empty and has no whitespace at either end. *)
Theorem X11_overlay_lines_are_captions
    (backend : Backend) (model : AsrModel) (acts : list Action) :
  Forall caption_line (lines (run backend model Pipeline_init acts)) /\
  len (lines (run backend model Pipeline_init acts)) <= KEEP_LINES.
Proof.
  assert (G : forall p,
            Forall caption_line (lines p) /\ len (lines p) <= KEEP_LINES ->
            Forall caption_line (lines (run backend model p acts)) /\
            len (lines (run backend model p acts)) <= KEEP_LINES).
  { unfold run. induction acts as [| a acts IH]; intros p H; [exact H |].
    cbn [fold_left]. apply IH. rewrite lines_step.
    destruct a; try exact H.
    destruct (terminate (shared p)); [exact H |].
    destruct H as [H1 H2]. split.
    - now apply tick_loop_caption_lines.
    - now apply len_tick_loop. }
  apply G. split; [constructor | unfold KEEP_LINES, len; simpl; lia].
Qed.

(* ===================================================================== *)
(** ** Device selection *)
(* ===================================================================== *)

Lemma is_blackhole_input_inv (d : DeviceEntry) :
  is_blackhole_input d = true ->
  exists name n,
    entry_name d = Some name /\
    entry_max_input_channels d = Some n /\
    0 < n /\
    contains "blackhole" (lower name) = true.
Proof.
  unfold is_blackhole_input. intros H.
  apply andb_true_iff in H. destruct H as [Hc Hn].
  destruct (entry_name d) as [name |]; [| discriminate Hc].
  destruct (entry_max_input_channels d) as [n |]; [| discriminate Hn].
  exists name, n. repeat split; try assumption.
  destruct (Z.gtb_spec n 0); [lia | discriminate].
Qed.

Lemma candidates_from_spec (devices : list DeviceEntry) :
  forall i0,
    match candidates_from i0 devices with
    | [] => Forall (fun d => is_blackhole_input d = false) devices
    | i :: _ =>
        exists j d,
          i = (i0 + j)%nat /\
          nth_error devices j = Some d /\
          is_blackhole_input d = true /\
          Forall (fun d' => is_blackhole_input d' = false) (firstn j devices)
    end.
Proof.
  induction devices as [| d ds IH]; intros i0; simpl; [constructor |].
  destruct (is_blackhole_input d) eqn:E.
  - exists 0%nat, d. repeat split; [lia | assumption | constructor].
  - specialize (IH (S i0)).
    destruct (candidates_from (S i0) ds) as [| i rest].
    + now constructor.
    + destruct IH as (j & d' & Hi & Hn & Hq & Hf).
      exists (S j), d'. repeat split; try assumption; [lia |].
      simpl. now constructor.
Qed.

(** X12: [pick_blackhole_device] returns the index of the first device
    that has a name containing "blackhole" in any letter case and a
    positive number of input channels, no device before it being such a
    one; it leaves with exit code 2 exactly when the host has no such
    device.  A device with a missing name or a missing channel count is
    never picked. *)
Theorem X12_first_blackhole_input (devices : list DeviceEntry) :
  match pick_blackhole_device devices with
  | Returns i =>
      exists d name n,
        nth_error devices i = Some d /\
        entry_name d = Some name /\
        contains "blackhole" (lower name) = true /\
        entry_max_input_channels d = Some n /\ 0 < n /\
        Forall (fun d' => is_blackhole_input d' = false) (firstn i devices)
  | SystemExit code =>
      code = 2 /\ Forall (fun d => is_blackhole_input d = false) devices
  end.
Proof.
  unfold pick_blackhole_device.
  pose proof (candidates_from_spec devices 0) as H.
  destruct (candidates_from 0 devices) as [| i rest].
  - split; [reflexivity | exact H].
  - destruct H as (j & d & -> & Hn & Hq & Hf). simpl.
    destruct (is_blackhole_input_inv d Hq) as (name & n & A & B & C & D).
    exists d, name, n. repeat split; assumption.
Qed.

Example pick_blackhole_device_second :
  pick_blackhole_device
    [mkDeviceEntry (Some "MacBook Pro Microphone"%string) (Some 1);
     mkDeviceEntry (Some "BlackHole 2ch"%string) (Some 2);
     mkDeviceEntry (Some "BLACKHOLE 16ch"%string) (Some 16)] = Returns 1%nat.
Proof. reflexivity. Qed.

Example pick_blackhole_device_output_only :
  pick_blackhole_device
    [mkDeviceEntry (Some "BlackHole 2ch"%string) (Some 0);
     mkDeviceEntry None (Some 2)] = SystemExit 2.
Proof. reflexivity. Qed.

(* ===================================================================== *)
(** ** Font and opacity keys *)
(* ===================================================================== *)

Lemma on_key_keeps_bounds (o : Overlay) (k : Key) :
  10 <= font_size o /\ Z.even (font_size o) = true /\
  ((3 # 10) <= alpha o /\ alpha o <= 1)%Q ->
  10 <= font_size (on_key o k) /\ Z.even (font_size (on_key o k)) = true /\
  ((3 # 10) <= alpha (on_key o k) /\ alpha (on_key o k) <= 1)%Q.
Proof.
  intros (Hf & He & Ha0 & Ha1). destruct k; simpl; repeat split;
    try assumption; try lia.
  - rewrite Z.even_add, He. reflexivity.
  - rewrite Z.even_add, He. reflexivity.
  - destruct (Z.max_spec 10 (font_size o - 2)) as [[_ ->] | [_ ->]];
      [| reflexivity].
    rewrite Z.even_sub, He. reflexivity.
  - apply Q.le_max_l.
  - apply Q.max_lub; lra.
  - apply Q.min_glb; lra.
  - apply Q.le_min_l.
Qed.

(** X13: whatever keys are pressed, the font size stays an even number of
    at least 10 points and the window opacity stays between 0.3 and 1. *)
Theorem X13_keys_keep_font_and_opacity_bounds (keys : list Key) :
  let o := fold_left on_key keys Overlay_init in
  10 <= font_size o /\ Z.even (font_size o) = true /\
  ((3 # 10) <= alpha o /\ alpha o <= 1)%Q.
Proof.
  assert (G : forall o,
            10 <= font_size o /\ Z.even (font_size o) = true /\
            ((3 # 10) <= alpha o /\ alpha o <= 1)%Q ->
            10 <= font_size (fold_left on_key keys o) /\
            Z.even (font_size (fold_left on_key keys o)) = true /\
            ((3 # 10) <= alpha (fold_left on_key keys o) /\
             alpha (fold_left on_key keys o) <= 1)%Q).
  { induction keys as [| k keys IH]; intros o H; [exact H |].
    simpl. apply IH. now apply on_key_keeps_bounds. }
  apply G. simpl. unfold FONT_SIZE, WINDOW_OPACITY.
  repeat split; try lia; try lra.
Qed.

(** X14: from a font size of at least 10, the minus key undoes the plus
    key; the plus key undoes the minus key exactly from 12 points on,
    the size not going below 10. *)
Theorem X14_font_keys_round_trip (o : Overlay) :
  10 <= font_size o ->
  on_key (on_key o KeyPlus) KeyMinus = o /\
  (on_key (on_key o KeyMinus) KeyPlus = o <-> 12 <= font_size o).
Proof.
  intros H. destruct o as [f a s]. simpl in *.
  unfold _dec_font, _inc_font. simpl. split.
  - f_equal. lia.
  - split.
    + intros E. inversion E. lia.
    + intros G. f_equal. lia.
Qed.

(** X14 at the initial overlay. *)
Lemma X14_font_keys_round_trip_witness :
  on_key (on_key Overlay_init KeyPlus) KeyMinus = Overlay_init /\
  (on_key (on_key Overlay_init KeyMinus) KeyPlus = Overlay_init <->
   12 <= font_size Overlay_init).
Proof.
  apply (X14_font_keys_round_trip Overlay_init). vm_compute. discriminate.
Defined.

(* ===================================================================== *)
(** ** Opening the stream *)
(* ===================================================================== *)

(** X15: for a device with a non-negative sample rate and channel count,
    [audio_thread] opens the stream with one or two channels, never more
    than the device has unless it has none, and with blocks of a
    twentieth of a second: [blocksize] is the whole part of
    [src_sr / 20]. *)
Theorem X15_stream_parameters (dev_info : DeviceInfo) :
  (0 <= default_samplerate dev_info)%Q ->
  0 <= max_input_channels dev_info ->
  let s := audio_thread dev_info in
  1 <= channels s <= 2 /\
  channels s <= Z.max 1 (max_input_channels dev_info) /\
  0 <= samplerate s /\
  20 * blocksize s <= samplerate s < 20 * blocksize s + 20.
Proof.
  intros Hr Hc s. subst s. unfold audio_thread.
  cbn [channels samplerate blocksize].
  set (sr := int (default_samplerate dev_info)).
  assert (Hsr : 0 <= sr).
  { unfold sr, int. apply Z.quot_pos; [| reflexivity].
    unfold Qle in Hr. simpl in Hr. lia. }
  assert (Hb : int (inject_Z sr * (1 # 20)) = sr / 20).
  { unfold int.
    change (Qnum (inject_Z sr * (1 # 20))) with (sr * 1).
    change (Z.pos (Qden (inject_Z sr * (1 # 20)))) with 20.
    rewrite Z.mul_1_r. apply Z.quot_div_nonneg; lia. }
  rewrite Hb.
  pose proof (Z.mod_pos_bound sr 20 ltac:(lia)) as Hm.
  pose proof (Z.div_mod sr 20 ltac:(lia)) as Hd.
  destruct (Z.eqb_spec (Z.min 2 (max_input_channels dev_info)) 0);
    repeat split; lia.
Qed.

(** X15 at a stereo device running at 44100 Hz. *)
Lemma X15_stream_parameters_witness :
  1 <= channels (audio_thread (mkDeviceInfo 44100 2)) <= 2 /\
  channels (audio_thread (mkDeviceInfo 44100 2)) <= Z.max 1 2 /\
  0 <= samplerate (audio_thread (mkDeviceInfo 44100 2)) /\
  20 * blocksize (audio_thread (mkDeviceInfo 44100 2))
    <= samplerate (audio_thread (mkDeviceInfo 44100 2))
    < 20 * blocksize (audio_thread (mkDeviceInfo 44100 2)) + 20.
Proof.
  apply (X15_stream_parameters (mkDeviceInfo 44100 2)).
  - vm_compute. discriminate.
  - vm_compute. discriminate.
Defined.

(* ===================================================================== *)
(** ** How the worker can end *)
(* ===================================================================== *)

Lemma terminate_step (backend : Backend) (model : AsrModel)
    (p : Pipeline) (a : Action) :
  terminate (shared p) = true ->
  terminate (shared (step backend model p a)) = true.
Proof.
  intros T. destruct a as [indata | | |]; simpl.
  - unfold audio_callback.
    destruct (put (raw_q (shared p)) indata); exact T.
  - destruct (worker p) as [src_buffer | e | |]; try exact T.
    now rewrite T.
  - now rewrite T.
  - reflexivity.
Qed.

Lemma worker_end_step (backend : Backend) (model : AsrModel)
    (p : Pipeline) (a : Action) :
  healthy p ->
  worker_end p ->
  worker_end (step backend model p a).
Proof.
  intros (_ & _ & _ & _ & Ht) H. unfold worker_end in *.
  destruct a as [indata | | |]; simpl.
  - unfold audio_callback.
    destruct (put (raw_q (shared p)) indata); exact H.
  - destruct (worker p) as [src_buffer | e | |] eqn:W.
    2, 3, 4: now rewrite W.
    destruct (terminate (shared p)) eqn:Tm; [exact Tm |].
    pose proof (asr_iteration_spec backend model src_buffer (shared p)) as I.
    destruct (asr_iteration backend model src_buffer (shared p)) as [r w'].
    inversion I as [G | b q G Hs | b q m text r' tq G Hl Hr Hd Ha Hp
                    | b q m e G Hl Hr Hd Ha]; subst; simpl; trivial.
    + rewrite (put_unbounded _ _ Ht) in Hp.
      destruct Hp as [(_ & _ & ->) | [(_ & _ & ->) | (_ & E & _)]];
        simpl; trivial. discriminate E.
    + exists (trace (shared p) ++
              [EngineCall (calls (shared p)) (fit_window m)]),
             (calls (shared p)).
      now rewrite <- app_assoc.
  - destruct (terminate (shared p)) eqn:Tm; destruct (worker p); simpl;
      rewrite ?Tm; auto.
  - destruct (worker p); simpl; auto.
Qed.

Lemma worker_end_run (backend : Backend) (model : AsrModel)
    (acts : list Action) :
  forall p, healthy p -> worker_end p ->
    worker_end (run backend model p acts).
Proof.
  unfold run. induction acts as [| a acts IH]; intros p Hh H; [exact H |].
  cbn [fold_left]. apply IH.
  - now apply healthy_step.
  - now apply worker_end_step.
Qed.

(** A worker at the head of its loop with the stop flag set returns at
    its next turn, whatever waits in the queues. *)
Lemma work_after_quit (backend : Backend) (model : AsrModel)
    (p : Pipeline) (src_buffer : list Q) :
  worker p = Running src_buffer ->
  step backend model (step backend model p Quit) Work =
  mkPipeline (set_terminate (shared p)) Finished (lines p).
Proof. intros W. simpl. now rewrite W. Qed.

(** Only a quit sets the stop flag. *)
Lemma terminate_step_inv (backend : Backend) (model : AsrModel)
    (p : Pipeline) (a : Action) :
  terminate (shared (step backend model p a)) = true ->
  terminate (shared p) = true \/ a = Quit.
Proof.
  destruct (terminate (shared p)) eqn:T; [now left |].
  destruct a as [indata | | |]; simpl; [| | | now right].
  - unfold audio_callback.
    destruct (put (raw_q (shared p)) indata); simpl; rewrite ?T; auto.
  - destruct (worker p) as [b | e | |]; rewrite ?T; auto.
    pose proof (asr_iteration_spec backend model b (shared p)) as I.
    destruct (asr_iteration backend model b (shared p)) as [r w'].
    assert (E : terminate w' = false) by (inversion I; subst; exact T).
    destruct r; simpl; rewrite E; auto.
  - rewrite T. simpl. rewrite T. auto.
Qed.

Lemma terminate_run_inv (backend : Backend) (model : AsrModel)
    (acts : list Action) :
  forall p,
    terminate (shared (run backend model p acts)) = true ->
    terminate (shared p) = true \/ In Quit acts.
Proof.
  unfold run. induction acts as [| a acts IH]; intros p H; [now left |].
  cbn [fold_left] in H. destruct (IH _ H) as [T | Hin].
  - destruct (terminate_step_inv backend model p a T) as [T' | ->];
      [now left | right; now left].
  - right. now right.
Qed.

(** X16: in every run of the pipeline the worker thread never waits on
    the caption queue, and it ends in two ways only: by an exception of
    the engine, the last engine event being then a raise, or by
    returning from its loop, the stop flag being then set.  A worker at
    the head of its loop does return at its first turn after a quit;
    without a quit it never returns.  Resampling in the worker never
    raises. *)
Theorem X16_worker_ends_by_engine_exception_or_quit
    (backend : Backend) (model : AsrModel) (acts : list Action) :
  let p := run backend model Pipeline_init acts in
  match worker p with
  | Running src_buffer =>
      worker (run backend model Pipeline_init (acts ++ [Quit; Work])) =
      Finished
  | Dead _ => exists tr k, trace (shared p) = tr ++ [EngineRaise k]
  | Waiting => False
  | Finished => terminate (shared p) = true /\ In Quit acts
  end.
Proof.
  intros p. subst p.
  pose proof (worker_end_run backend model acts Pipeline_init
                healthy_init I) as H.
  unfold worker_end in H.
  destruct (worker (run backend model Pipeline_init acts))
    as [b | e | |] eqn:W; try exact H.
  - rewrite run_app. unfold run at 1. cbn [fold_left].
    now rewrite (work_after_quit backend model _ b W).
  - split; [exact H |].
    destruct (terminate_run_inv backend model acts Pipeline_init H)
      as [C | Hin]; [discriminate C | exact Hin].
Qed.

(** A run in which the user quits while a block waits: the worker
    returns without consuming it. *)
Example worker_returns_at_quit :
  worker (run whisper model_empty_then_hello Pipeline_init
            [Capture (Arr1 [0%Q]); Quit; Work; Capture (Arr1 [0%Q]); Work]) =
  Finished.
Proof. reflexivity. Qed.
